(** * pi-home-utils: the sensor sample store (src/db/db.c, src/db/db.h)

    A shallow embedding of the five functions of db.c over a model of the
    part of SQLite and of the C library that they call, followed by the
    properties of the store that the specification states.

    Layout:
    - C integers, strings and the [strncpy] copy;
    - the SQLite engine as this program uses it: database files, the five
      SQL statements of db.c, connections, prepared statements, an oracle
      of environmental faults and a trace of the calls made;
    - [sensors_db_open], [sensors_db_store_data], [sensors_db_read_latest],
      [sensors_db_read_n], [sensors_db_close];
    - lemmas on the engine model, then the properties of the store. *)

From Stdlib Require Import ZArith Lia String Ascii.
From stdpp Require Import base gmap strings list sorting.
From Equations Require Import Equations.

Local Open Scope Z_scope.

(** ** C integers and C strings *)

Definition INT_MAX : Z := 2147483647.
Definition INT_MIN : Z := -2147483648.

(** Conversion of a 64-bit SQLite integer to a C [int]: the low 32 bits,
    read as a signed number. *)
Definition to_int (x : Z) : Z := (x + 2 ^ 31) `mod` 2 ^ 32 - 2 ^ 31.

Definition NUL : ascii := Ascii.zero.

(** The [n] bytes that [strncpy] stores: the characters of [src] up to its
    terminator, cut at [n]; once the terminator is met the rest is filled
    with NUL.  No terminator is stored when [src] has [n] characters or
    more. *)
Fixpoint strncpy_bytes (src : string) (n : nat) : list ascii :=
  match n with
  | O => []
  | S n' =>
      match src with
      | EmptyString => NUL :: strncpy_bytes EmptyString n'
      | String c rest =>
          if Ascii.eqb c NUL then NUL :: strncpy_bytes EmptyString n'
          else c :: strncpy_bytes rest n'
      end
  end.

(** [strncpy(dst, src, n)]: the first [n] bytes of [dst] are replaced. *)
Definition strncpy (dst : list ascii) (src : string) (n : nat) : list ascii :=
  strncpy_bytes src n ++ drop n dst.

(** The characters a reader of a C string sees in a buffer: those before
    the first NUL; [None] when the buffer holds no NUL, in which case the
    reader runs past its end. *)
Fixpoint c_string (buf : list ascii) : option string :=
  match buf with
  | [] => None
  | c :: rest =>
      if Ascii.eqb c NUL then Some EmptyString
      else String c <$> c_string rest
  end.

Definition newline : string := String (ascii_of_nat 10) EmptyString.

(** The directory of a path: what precedes its last slash; "." for a
    path without a slash, "/" for a file of the root. *)
Fixpoint before_last_slash (p : string) : option string :=
  match p with
  | EmptyString => None
  | String c rest =>
      match before_last_slash rest with
      | Some d => Some (String c d)
      | None => if Ascii.eqb c "/" then Some EmptyString else None
      end
  end.

Definition dirname (p : string) : string :=
  match before_last_slash p with
  | None => "."
  | Some EmptyString => "/"
  | Some d => d
  end.

(** ** SQLite as db.c uses it

    SQLite is not part of the repository: it is the environment of db.c.
    The model below follows its documentation (sqlite.org/c3ref) for the
    calls that db.c makes: [sqlite3_open_v2], [sqlite3_exec],
    [sqlite3_prepare_v2], the two binds, [sqlite3_step], the three column
    accessors, [sqlite3_finalize] and [sqlite3_close], on the one table
    and the five SQL texts of db.c.  Every call that can fail for reasons
    outside the program (a lock held by another process, memory, the disk)
    takes its fate from an oracle in the world, so that the properties
    below hold for every behaviour of the environment or say which
    behaviour they assume. *)

(** *** Result codes and open flags (sqlite3.h) *)

Definition SQLITE_OK : Z := 0.
Definition SQLITE_ERROR : Z := 1.
Definition SQLITE_BUSY : Z := 5.
Definition SQLITE_NOMEM : Z := 7.
Definition SQLITE_READONLY : Z := 8.
Definition SQLITE_IOERR : Z := 10.
Definition SQLITE_CORRUPT : Z := 11.
Definition SQLITE_FULL : Z := 13.
Definition SQLITE_CANTOPEN : Z := 14.
Definition SQLITE_MISMATCH : Z := 20.
Definition SQLITE_MISUSE : Z := 21.
Definition SQLITE_RANGE : Z := 25.
Definition SQLITE_ROW : Z := 100.
Definition SQLITE_DONE : Z := 101.

Definition SQLITE_OPEN_READONLY : Z := 1.
Definition SQLITE_OPEN_READWRITE : Z := 2.
Definition SQLITE_OPEN_CREATE : Z := 4.

(** Largest rowid of a table. *)
Definition MAX_ROWID : Z := 2 ^ 63 - 1.

(** Errors that the environment can inflict on any engine call: another
    process holding the lock, memory, the disk, a damaged file, a file
    that cannot be opened (permissions, a journal that cannot be
    created). *)
Inductive fault := Busy | NoMem | IoErr | Corrupt | Full | CantOpen.

Definition fault_rc (f : fault) : Z :=
  match f with
  | Busy => SQLITE_BUSY
  | NoMem => SQLITE_NOMEM
  | IoErr => SQLITE_IOERR
  | Corrupt => SQLITE_CORRUPT
  | Full => SQLITE_FULL
  | CantOpen => SQLITE_CANTOPEN
  end.

Definition sqlite3_errmsg (rc : Z) : string :=
  if decide (rc = SQLITE_BUSY) then "database is locked"
  else if decide (rc = SQLITE_NOMEM) then "out of memory"
  else if decide (rc = SQLITE_READONLY) then "attempt to write a readonly database"
  else if decide (rc = SQLITE_IOERR) then "disk I/O error"
  else if decide (rc = SQLITE_CORRUPT) then "database disk image is malformed"
  else if decide (rc = SQLITE_FULL) then "database or disk is full"
  else if decide (rc = SQLITE_CANTOPEN) then "unable to open database file"
  else "SQL logic error".

(** The SQL texts of db.c.  [TRIM_SQL n] is the text that [snprintf] builds
    from the retention limit [n] (the 256-byte buffer holds it for every
    [int]). *)
Inductive sql :=
  | CREATE_TABLE_SQL
  | INSERT_SQL
  | TRIM_SQL (limit : Z)
  | SELECT_LATEST_SQL
  | SELECT_N_SQL.

#[global] Instance sql_eq_dec : EqDecision sql.
Proof. solve_decision. Defined.

(** db.h *)
Inductive sensors_db_mode_t := SENSORS_DB_PRODUCER | SENSORS_DB_CONSUMER.

#[global] Instance sensors_db_mode_eq_dec : EqDecision sensors_db_mode_t.
Proof. solve_decision. Defined.

(** [sizeof(out->timestamp)] *)
Definition sizeof_timestamp : nat := 32.

Definition inspect {A : Type} (a : A) : { b : A | a = b } := exist _ a eq_refl.

(** Floating point is kept abstract: C's [float] and [double], the
    promotion of a [float] argument to the [double] parameter of
    [sqlite3_bind_double], the conversion of the [double] that
    [sqlite3_column_double] returns to a [float] field, SQLite's
    conversion of an integer to a REAL, and the test for a NaN, which
    SQLite does not store. *)
Class Floats (c_float c_double : Type) := {
  double_of_float : c_float -> c_double;
  float_of_double : c_double -> c_float;
  double_of_Z : Z -> c_double;
  double_is_nan : c_double -> bool
}.

Section Store.

Context {c_float c_double : Type} `{!Floats c_float c_double}.

(** ** The table SensorData *)

(** One row.  [row_id] is the 64-bit rowid; [row_timestamp] is the text of
    the timestamp column; a REAL column holds NULL ([None]) or a double. *)
Record row := {
  row_id : Z;
  row_timestamp : string;
  row_bmp280_temperature : option c_double;
  row_bmp280_pressure : option c_double;
  row_htu21d_temperature : option c_double;
  row_htu21d_humidity : option c_double
}.

(** The rows in storage order, and the AUTOINCREMENT counter
    (sqlite_sequence): the largest rowid ever handed out. *)
Record table := {
  tbl_rows : list row;
  tbl_seq : Z
}.

Definition empty_table : table := {| tbl_rows := []; tbl_seq := 0 |}.

(** [ORDER BY id DESC] *)
Definition id_desc (r1 r2 : row) : Prop := row_id r2 <= row_id r1.

#[local] Instance id_desc_dec r1 r2 : Decision (id_desc r1 r2).
Proof. unfold id_desc. apply _. Defined.

Definition order_by_id_desc (rs : list row) : list row := merge_sort id_desc rs.

(** [LIMIT n]: a negative [n] means no limit. *)
Definition sql_limit {A : Type} (n : Z) (l : list A) : list A :=
  if decide (n < 0) then l else take (Z.to_nat n) l.

(** [SELECT ... FROM SensorData ORDER BY id DESC LIMIT n] *)
Definition select_desc_limit (n : Z) (t : table) : list row :=
  sql_limit n (order_by_id_desc (tbl_rows t)).

(** [DELETE FROM SensorData WHERE id NOT IN
     (SELECT id FROM SensorData ORDER BY id DESC LIMIT n)] *)
Definition delete_not_in_latest (n : Z) (t : table) : table :=
  let keep := row_id <$> select_desc_limit n t in
  {| tbl_rows := filter (fun r => row_id r ∈ keep) (tbl_rows t);
     tbl_seq := tbl_seq t |}.

(** A value bound to a parameter of a prepared statement. *)
Inductive value :=
  | VNull
  | VInt (n : Z)
  | VReal (d : c_double).

(** What a REAL column stores for a value: NULL stays NULL, an integer is
    converted (REAL affinity). *)
Definition real_column (v : value) : option c_double :=
  match v with
  | VNull => None
  | VInt n => Some (double_of_Z n)
  | VReal d => Some d
  end.

(** What [sqlite3_bind_double] binds for a double: SQLite has no NaN, a
    NaN is bound as NULL. *)
Definition bound_double (d : c_double) : value :=
  if double_is_nan d then VNull else VReal d.

(** What [sqlite3_column_double] returns for a REAL column: a NULL reads
    as 0.0. *)
Definition double_of_column (c : option c_double) : c_double :=
  default (double_of_Z 0) c.

(** [INSERT INTO SensorData (...) VALUES (?, ?, ?, ?)]: the rowid is one
    more than the largest ever used, the timestamp is the current time. *)
Definition new_row (now : string) (params : list value) (t : table) : row :=
  let col i := real_column (default VNull (params !! i)) in
  {| row_id := tbl_seq t + 1;
     row_timestamp := now;
     row_bmp280_temperature := col 0%nat;
     row_bmp280_pressure := col 1%nat;
     row_htu21d_temperature := col 2%nat;
     row_htu21d_humidity := col 3%nat |}.

Definition insert_row (now : string) (params : list value) (t : table) : table :=
  {| tbl_rows := tbl_rows t ++ [new_row now params t]; tbl_seq := tbl_seq t + 1 |}.

(** ** Connections, statements, the world *)

(** [sqlite3 *]: an open connection. *)
Record sqlite3 := {
  conn_file : string;
  conn_readonly : bool
}.

(** [sqlite3_stmt *]: a prepared statement.  [st_cursor] is [None] until
    the first step; afterwards it holds the rows not yet returned.
    [st_row] is the row the column accessors read.  [st_rc] is the error
    of the most recent evaluation, which [sqlite3_finalize] returns. *)
Record sqlite3_stmt := {
  st_conn : sqlite3;
  st_sql : sql;
  st_params : list value;
  st_cursor : option (list row);
  st_row : option row;
  st_rc : Z
}.

(** What a call leaves behind, most recent first. *)
Inductive event :=
  | EvStderr (msg : string)
  | EvOpen (filename : string) (flags rc : Z)
  | EvExec (s : sql) (rc : Z)
  | EvPrepare (s : sql) (rc : Z)
  | EvBindDouble (i : Z) (d : c_double)
  | EvBindInt (i n : Z)
  | EvStep (rc : Z)
  | EvFinalize (rc : Z)
  | EvClose.

(** The world outside the process: the database files by path ([None]
    inside: a database without the table SensorData), the directories in
    which this process can create a file, the clock as CURRENT_TIMESTAMP
    prints it, whether [calloc] fails, the faults that the coming engine
    calls will meet (one entry per call, [None] or an exhausted list: no
    fault), and the trace. *)
Record world := {
  w_files : gmap string (option table);
  w_dirs : gset string;
  w_now : string;
  w_calloc_fails : bool;
  w_faults : list (option fault);
  w_trace : list event
}.

Definition set_files (fs : gmap string (option table)) (w : world) : world :=
  {| w_files := fs; w_dirs := w_dirs w;
     w_now := w_now w; w_calloc_fails := w_calloc_fails w;
     w_faults := w_faults w; w_trace := w_trace w |}.

Definition set_faults (l : list (option fault)) (w : world) : world :=
  {| w_files := w_files w; w_dirs := w_dirs w;
     w_now := w_now w; w_calloc_fails := w_calloc_fails w;
     w_faults := l; w_trace := w_trace w |}.

Definition set_trace (l : list event) (w : world) : world :=
  {| w_files := w_files w; w_dirs := w_dirs w;
     w_now := w_now w; w_calloc_fails := w_calloc_fails w;
     w_faults := w_faults w; w_trace := l |}.

(** Calls are state transformers on the world. *)
Definition M (A : Type) : Type := world -> A * world.

#[local] Instance M_ret : MRet M := fun A a w => (a, w).
#[local] Instance M_bind : MBind M :=
  fun A B f m w => let '(a, w') := m w in f a w'.

Definition log (e : event) : M unit :=
  fun w => (tt, set_trace (e :: w_trace w) w).

Definition next_fault : M (option fault) :=
  fun w =>
    match w_faults w with
    | [] => (None, w)
    | f :: rest => (f, set_faults rest w)
    end.

Definition fprintf_stderr (msg : string) : M unit := log (EvStderr msg).

(** [calloc] of the handle: [true] when memory was obtained. *)
Definition calloc : M bool := fun w => (negb (w_calloc_fails w), w).

(** [access(path, F_OK)] *)
Definition access (path : string) : M Z :=
  fun w => (if decide (is_Some (w_files w !! path)) then 0 else -1, w).

(** ** The engine calls *)

Definition table_of (c : sqlite3) (w : world) : option table :=
  default None (w_files w !! conn_file c).

(** [sqlite3_open_v2(filename, &db, flags, NULL)].  With the CREATE flag a
    missing file is created (a database without tables) when its
    directory exists and is writable; otherwise, and without the flag,
    the open of a missing file fails with SQLITE_CANTOPEN. *)
Definition sqlite3_open_v2 (filename : string) (flags : Z) : M (Z * option sqlite3) :=
  f ← next_fault;
  r ← match f with
      | Some e => mret (fault_rc e, None)
      | None =>
          fun w =>
            let c := {| conn_file := filename;
                        conn_readonly := negb (Z.testbit flags 1) |} in
            match w_files w !! filename with
            | Some _ => ((SQLITE_OK, Some c), w)
            | None =>
                if Z.testbit flags 2 && bool_decide (dirname filename ∈ w_dirs w)
                then ((SQLITE_OK, Some c), set_files (<[filename := None]> (w_files w)) w)
                else ((SQLITE_CANTOPEN, None), w)
            end
      end;
  log (EvOpen filename flags r.1);;
  mret r.

(** [sqlite3_close(db)]: a no-op on NULL. *)
Definition sqlite3_close (db : option sqlite3) : M Z :=
  match db with
  | None => mret SQLITE_OK
  | Some _ => log EvClose;; mret SQLITE_OK
  end.

(** The effect of a statement run through [sqlite3_exec].  db.c runs the
    table creation and the trim this way; the other texts carry
    parameters and are not run through it. *)
Definition exec_sql (c : sqlite3) (s : sql) : M Z :=
  fun w =>
    match w_files w !! conn_file c with
    | None => (SQLITE_IOERR, w)
    | Some content =>
        match s, content with
        | CREATE_TABLE_SQL, Some _ => (SQLITE_OK, w)
        | CREATE_TABLE_SQL, None =>
            if conn_readonly c then (SQLITE_READONLY, w)
            else (SQLITE_OK, set_files (<[conn_file c := Some empty_table]> (w_files w)) w)
        | TRIM_SQL n, Some t =>
            if conn_readonly c then (SQLITE_READONLY, w)
            else (SQLITE_OK,
                  set_files (<[conn_file c := Some (delete_not_in_latest n t)]> (w_files w)) w)
        | TRIM_SQL _, None => (SQLITE_ERROR, w)
        | _, _ => (SQLITE_MISUSE, w)
        end
    end.

(** [sqlite3_exec(db, sql, NULL, NULL, &err)] *)
Definition sqlite3_exec (db : option sqlite3) (s : sql) : M Z :=
  f ← next_fault;
  rc ← match f, db with
       | Some e, _ => mret (fault_rc e)
       | None, None => mret SQLITE_MISUSE
       | None, Some c => exec_sql c s
       end;
  log (EvExec s rc);;
  mret rc.

Definition param_count (s : sql) : nat :=
  match s with
  | INSERT_SQL => 4
  | SELECT_N_SQL => 1
  | _ => 0
  end.

(** A statement just compiled: every parameter is NULL, nothing has run. *)
Definition new_stmt (c : sqlite3) (s : sql) : sqlite3_stmt :=
  {| st_conn := c; st_sql := s;
     st_params := replicate (param_count s) VNull;
     st_cursor := None; st_row := None; st_rc := SQLITE_OK |}.

(** [sqlite3_prepare_v2(db, sql, -1, &stmt, NULL)]: compiling fails when
    the table SensorData does not exist; the statement is NULL then. *)
Definition sqlite3_prepare_v2 (db : option sqlite3) (s : sql) : M (Z * option sqlite3_stmt) :=
  f ← next_fault;
  r ← match f, db with
      | Some e, _ => mret (fault_rc e, None)
      | None, None => mret (SQLITE_MISUSE, None)
      | None, Some c =>
          fun w =>
            match table_of c w with
            | None => ((SQLITE_ERROR, None), w)
            | Some _ =>
                ((SQLITE_OK, Some (new_stmt c s)), w)
            end
      end;
  log (EvPrepare s r.1);;
  mret r.

Definition set_param (i : Z) (v : value) (st : sqlite3_stmt) : sqlite3_stmt :=
  {| st_conn := st_conn st; st_sql := st_sql st;
     st_params := <[Z.to_nat (i - 1) := v]> (st_params st);
     st_cursor := st_cursor st; st_row := st_row st; st_rc := st_rc st |}.

Definition bind_value (stmt : option sqlite3_stmt) (i : Z) (v : value)
  : Z * option sqlite3_stmt :=
  match stmt with
  | None => (SQLITE_MISUSE, None)
  | Some st =>
      if decide (1 <= i <= Z.of_nat (length (st_params st)))
      then (SQLITE_OK, Some (set_param i v st))
      else (SQLITE_RANGE, Some st)
  end.

(** [sqlite3_bind_double(stmt, i, d)] *)
Definition sqlite3_bind_double (stmt : option sqlite3_stmt) (i : Z) (d : c_double)
  : M (Z * option sqlite3_stmt) :=
  log (EvBindDouble i d);;
  mret (bind_value stmt i (bound_double d)).

(** [sqlite3_bind_int(stmt, i, n)] *)
Definition sqlite3_bind_int (stmt : option sqlite3_stmt) (i : Z) (n : Z)
  : M (Z * option sqlite3_stmt) :=
  log (EvBindInt i n);;
  mret (bind_value stmt i (VInt n)).

Definition stepped (st : sqlite3_stmt) (cur : option (list row)) (r : option row) (rc : Z)
  : sqlite3_stmt :=
  {| st_conn := st_conn st; st_sql := st_sql st; st_params := st_params st;
     st_cursor := cur; st_row := r;
     st_rc := if decide (rc = SQLITE_ROW ∨ rc = SQLITE_DONE) then SQLITE_OK else rc |}.

(** The rows a query returns, fixed when it starts to run. *)
Definition result_set (st : sqlite3_stmt) (t : table) : option (list row) :=
  match st_sql st with
  | SELECT_LATEST_SQL => Some (select_desc_limit 1 t)
  | SELECT_N_SQL =>
      match st_params st !! 0%nat with
      | Some (VInt n) => Some (select_desc_limit n t)
      | _ => None
      end
  | _ => None
  end.

(** One step of a query: the next row, or the end. *)
Definition step_cursor (st : sqlite3_stmt) (rs : list row) : Z * sqlite3_stmt :=
  match rs with
  | r :: rest => (SQLITE_ROW, stepped st (Some rest) (Some r) SQLITE_ROW)
  | [] => (SQLITE_DONE, stepped st (Some []) None SQLITE_DONE)
  end.

(** One step of a statement when the environment does not interfere. *)
Definition step_sql (st : sqlite3_stmt) : M (Z * sqlite3_stmt) :=
  fun w =>
    let fail rc := ((rc, stepped st (st_cursor st) None rc), w) in
    match table_of (st_conn st) w with
    | None => fail SQLITE_ERROR
    | Some t =>
        match st_sql st with
        | INSERT_SQL =>
            if conn_readonly (st_conn st) then fail SQLITE_READONLY
            else if decide (MAX_ROWID <= tbl_seq t) then fail SQLITE_FULL
            else
              let t' := insert_row (w_now w) (st_params st) t in
              ((SQLITE_DONE, stepped st (st_cursor st) None SQLITE_DONE),
               set_files (<[conn_file (st_conn st) := Some t']> (w_files w)) w)
        | SELECT_LATEST_SQL | SELECT_N_SQL =>
            match st_cursor st with
            | Some rs => (step_cursor st rs, w)
            | None =>
                match result_set st t with
                | Some rs => (step_cursor st rs, w)
                | None => fail SQLITE_MISMATCH
                end
            end
        | _ => fail SQLITE_MISUSE
        end
    end.

(** [sqlite3_step(stmt)] *)
Definition sqlite3_step (stmt : option sqlite3_stmt) : M (Z * option sqlite3_stmt) :=
  f ← next_fault;
  r ← match f, stmt with
      | _, None => mret (SQLITE_MISUSE, None)
      | Some e, Some st =>
          mret (fault_rc e, Some (stepped st (st_cursor st) None (fault_rc e)))
      | None, Some st => '(rc, st') ← step_sql st; mret (rc, Some st')
      end;
  log (EvStep r.1);;
  mret r.

(** [sqlite3_finalize(stmt)]: the error of the most recent evaluation, or
    SQLITE_OK; a no-op on NULL. *)
Definition sqlite3_finalize (stmt : option sqlite3_stmt) : M Z :=
  let rc := match stmt with None => SQLITE_OK | Some st => st_rc st end in
  log (EvFinalize rc);;
  mret rc.

(** Column accessors on the current row, for the columns and types that
    db.c reads: column 0 as an [int], column 1 as text, columns 2 to 5 as
    doubles. *)
Definition sqlite3_column_int (stmt : option sqlite3_stmt) (i : Z) : Z :=
  match stmt ≫= st_row with
  | Some r => if decide (i = 0) then to_int (row_id r) else 0
  | None => 0
  end.

Definition sqlite3_column_text (stmt : option sqlite3_stmt) (i : Z) : string :=
  match stmt ≫= st_row with
  | Some r => if decide (i = 1) then row_timestamp r else EmptyString
  | None => EmptyString
  end.

Definition sqlite3_column_double (stmt : option sqlite3_stmt) (i : Z) : c_double :=
  match stmt ≫= st_row with
  | Some r =>
      if decide (i = 2) then double_of_column (row_bmp280_temperature r)
      else if decide (i = 3) then double_of_column (row_bmp280_pressure r)
      else if decide (i = 4) then double_of_column (row_htu21d_temperature r)
      else if decide (i = 5) then double_of_column (row_htu21d_humidity r)
      else double_of_Z 0
  | None => double_of_Z 0
  end.

(** ** db.h: the handle and the sample *)

Record sensors_db_t := {
  db : option sqlite3;
  data_limit : Z;
  mode : sensors_db_mode_t
}.

(** One row of sensor data as the caller receives it; [sample_timestamp]
    is the array [char timestamp[32]]. *)
Record sensors_sample_t := {
  sample_id : Z;
  sample_timestamp : list ascii;
  sample_bmp280_temperature : c_float;
  sample_bmp280_pressure : c_float;
  sample_htu21d_temperature : c_float;
  sample_htu21d_humidity : c_float
}.

Definition set_db (conn : option sqlite3) (h : sensors_db_t) : sensors_db_t :=
  {| db := conn; data_limit := data_limit h; mode := mode h |}.

(** ** db.c *)

(** The label [error_db] of [sensors_db_open]. *)
Definition error_db (h : sensors_db_t) : M (option sensors_db_t) :=
  sqlite3_close (db h);;
  mret None.

Definition sensors_db_open (db_file : string) (mode : sensors_db_mode_t) (data_limit : Z)
  : M (option sensors_db_t) :=
  got ← calloc;
  if negb got then mret None
  else
    let h := {| db := None; data_limit := data_limit; mode := mode |} in
    match mode with
    | SENSORS_DB_CONSUMER =>
        a ← access db_file;
        if decide (a ≠ 0) then
          fprintf_stderr ("Database does not exist: " +:+ db_file +:+ newline);;
          error_db h
        else
          '(rc, conn) ← sqlite3_open_v2 db_file SQLITE_OPEN_READONLY;
          let h := set_db conn h in
          if decide (rc ≠ SQLITE_OK) then
            fprintf_stderr ("Cannot open DB: " +:+ sqlite3_errmsg rc +:+ newline);;
            error_db h
          else mret (Some h)
    | SENSORS_DB_PRODUCER =>
        let flags := Z.lor SQLITE_OPEN_READWRITE SQLITE_OPEN_CREATE in
        '(rc, conn) ← sqlite3_open_v2 db_file flags;
        let h := set_db conn h in
        if decide (rc ≠ SQLITE_OK) then
          fprintf_stderr ("Cannot open DB: " +:+ sqlite3_errmsg rc +:+ newline);;
          error_db h
        else
          rc ← sqlite3_exec (db h) CREATE_TABLE_SQL;
          if decide (rc ≠ SQLITE_OK) then
            fprintf_stderr ("SQL error: " +:+ sqlite3_errmsg rc +:+ newline);;
            error_db h
          else mret (Some h)
    end.

Definition sensors_db_store_data (self : sensors_db_t)
    (bmp280_temp bmp280_pressure htu21d_temp htu21d_humidity : c_float) : M Z :=
  if decide (mode self ≠ SENSORS_DB_PRODUCER) then
    fprintf_stderr ("DB is read-only" +:+ newline);;
    mret (-1)
  else
    '(rc, stmt) ← sqlite3_prepare_v2 (db self) INSERT_SQL;
    if decide (rc ≠ SQLITE_OK) then mret (-1)
    else
      '(_, stmt) ← sqlite3_bind_double stmt 1 (double_of_float bmp280_temp);
      '(_, stmt) ← sqlite3_bind_double stmt 2 (double_of_float bmp280_pressure);
      '(_, stmt) ← sqlite3_bind_double stmt 3 (double_of_float htu21d_temp);
      '(_, stmt) ← sqlite3_bind_double stmt 4 (double_of_float htu21d_humidity);
      '(_, stmt) ← sqlite3_step stmt;
      rc ← sqlite3_finalize stmt;
      if decide (rc ≠ SQLITE_OK) then mret (-1)
      else
        (if decide (data_limit self > 0)
         then sqlite3_exec (db self) (TRIM_SQL (data_limit self));; mret tt
         else mret tt);;
        mret 0.

(** The six assignments that copy the current row of [stmt] into [*out],
    as both read functions have them. *)
Definition copy_row (stmt : option sqlite3_stmt) (out : sensors_sample_t) : sensors_sample_t :=
  {| sample_id := sqlite3_column_int stmt 0;
     sample_timestamp :=
       strncpy (sample_timestamp out) (sqlite3_column_text stmt 1) sizeof_timestamp;
     sample_bmp280_temperature := float_of_double (sqlite3_column_double stmt 2);
     sample_bmp280_pressure := float_of_double (sqlite3_column_double stmt 3);
     sample_htu21d_temperature := float_of_double (sqlite3_column_double stmt 4);
     sample_htu21d_humidity := float_of_double (sqlite3_column_double stmt 5) |}.

Definition sensors_db_read_latest (self : sensors_db_t) (out : sensors_sample_t)
  : M (Z * sensors_sample_t) :=
  '(rc, stmt) ← sqlite3_prepare_v2 (db self) SELECT_LATEST_SQL;
  if decide (rc ≠ SQLITE_OK) then mret (-1, out)
  else
    '(rc, stmt) ← sqlite3_step stmt;
    if decide (rc ≠ SQLITE_ROW) then
      sqlite3_finalize stmt;;
      mret (-1, out)
    else
      let out := copy_row stmt out in
      rc ← sqlite3_finalize stmt;
      mret (rc, out).

(** A call that stores through a pointer either returns, or has stored
    outside the caller's array: undefined behaviour. *)
Inductive outcome (A : Type) :=
  | Returned (a : A) (w : world)
  | Undefined.
Arguments Returned {A} a w.
Arguments Undefined {A}.

(** An upper bound on the rows a statement can still return. *)
Definition rows_left (stmt : option sqlite3_stmt) (w : world) : nat :=
  match stmt with
  | None => 0
  | Some st =>
      match st_cursor st with
      | Some rs => length rs
      | None =>
          match table_of (st_conn st) w with
          | Some t => S (length (tbl_rows t))
          | None => 0
          end
      end
  end.

(** The [while] loop of [sensors_db_read_n]: [out_array] is the caller's
    array (its length is what the caller allocated), [count] the number of
    entries filled so far.  The result carries the statement, for the
    [sqlite3_finalize] that follows the loop. *)
Equations? read_n_loop (stmt : option sqlite3_stmt) (out_array : list sensors_sample_t)
    (max_samples count : Z) (w : world)
  : outcome (option sqlite3_stmt * list sensors_sample_t * Z)
  by wf (rows_left stmt w) lt :=
read_n_loop stmt out_array max_samples count w with inspect (sqlite3_step stmt w) := {
  | exist _ (rc, stmt', w') Hstep with decide (rc = SQLITE_ROW) := {
    | right _ => Returned (stmt', out_array, count) w'
    | left Hrow with out_array !! Z.to_nat count := {
      | None => Undefined
      | Some out =>
          let out_array' := <[Z.to_nat count := copy_row stmt' out]> out_array in
          let count' := count + 1 in
          if decide (count' >= max_samples)
          then Returned (stmt', out_array', count') w'
          else read_n_loop stmt' out_array' max_samples count' w' } } }.
Proof.
  clear -Hstep.
  assert (Hlen : ∀ n t, (length (select_desc_limit n t) ≤ length (tbl_rows t))%nat).
  { intros n t. unfold select_desc_limit, sql_limit, order_by_id_desc.
    pose proof (Permutation_length (merge_sort_Permutation id_desc (tbl_rows t))) as Hp.
    case_decide; [|rewrite length_take]; lia. }
  unfold sqlite3_step, next_fault in Hstep.
  cbv [mbind M_bind mret M_ret log] in Hstep.
  destruct stmt as [st|]; [|by destruct (w_faults w) as [|[?|] ?]; simplify_eq/=].
  set (w1 := match w_faults w with [] => w | _ :: fs => set_faults fs w end).
  assert (Hnom : step_sql st w1 = (SQLITE_ROW, default st stmt', set_trace (tl (w_trace w')) w')
                 ∧ is_Some stmt' ∧ table_of (st_conn st) w1 = table_of (st_conn st) w).
  { subst w1. destruct (w_faults w) as [|[e|] fs]; simpl in Hstep.
    - destruct (step_sql st w) as [[rc st'] w2] eqn:Hs. simplify_eq/=.
      by destruct w2.
    - by destruct e.
    - destruct (step_sql st (set_faults fs w)) as [[rc st'] w2] eqn:Hs. simplify_eq/=.
      by destruct w2. }
  destruct Hnom as (Hnom & [st' ->] & Ht). simpl in *. clear Hstep.
  unfold step_sql in Hnom. rewrite Ht in Hnom. clear Ht.
  destruct (table_of (st_conn st) w) as [t|]; [|by inversion Hnom].
  assert (Hcur : ∀ rs, (step_cursor st rs, w1)
                       = (SQLITE_ROW, st', set_trace (tl (w_trace w')) w')
                       → st_cursor st' = Some (tl rs) ∧ rs ≠ []).
  { intros [|r rest] Hrs; inversion Hrs; by subst. }
  destruct (st_sql st) eqn:Hsql; try (repeat case_match; inversion Hnom; fail).
  all: destruct (st_cursor st) as [rs|] eqn:Hc.
  all: try (apply Hcur in Hnom as [-> ?]; destruct rs; simpl; [done|lia]).
  all: destruct (result_set st t) as [rs|] eqn:Hr; [|by inversion Hnom].
  all: apply Hcur in Hnom as [-> ?].
  all: assert (length rs ≤ length (tbl_rows t))%nat
         by (unfold result_set in Hr; repeat case_match; try discriminate;
             injection Hr as <-; apply Hlen).
  all: destruct rs; simpl in *; [done|lia].
Qed.

Definition sensors_db_read_n (self : sensors_db_t) (out_array : list sensors_sample_t)
    (max_samples : Z) (w : world) : outcome (Z * list sensors_sample_t) :=
  let '(rc, stmt, w) := sqlite3_prepare_v2 (db self) SELECT_N_SQL w in
  if decide (rc ≠ SQLITE_OK) then Returned (-1, out_array) w
  else
    let '(_, stmt, w) := sqlite3_bind_int stmt 1 max_samples w in
    let count := 0 in
    match read_n_loop stmt out_array max_samples count w with
    | Undefined => Undefined
    | Returned (stmt, out_array, count) w =>
        let '(_, w) := sqlite3_finalize stmt w in
        Returned (count, out_array) w
    end.

Definition sensors_db_close (self : option sensors_db_t) : M unit :=
  match self with
  | None => mret tt
  | Some h => sqlite3_close (db h);; mret tt
  end.

(** ** Notions used to state the properties *)

(** The world after an engine call that wrote no file: the call took the
    fault that came next and left an event. *)
Definition after (e : event) (w : world) : world :=
  set_trace (e :: w_trace w) (set_faults (tail (w_faults w)) w).

(** What the four [sqlite3_bind_double] calls of a store leave in the
    trace, the parameters they bind, and the statement they make of a
    fresh INSERT. *)
Definition bind_events (a b c d : c_float) : list event :=
  [EvBindDouble 4 (double_of_float d); EvBindDouble 3 (double_of_float c);
   EvBindDouble 2 (double_of_float b); EvBindDouble 1 (double_of_float a)].

Definition bound_params (a b c d : c_float) : list value :=
  [bound_double (double_of_float a); bound_double (double_of_float b);
   bound_double (double_of_float c); bound_double (double_of_float d)].

Definition insert_stmt (conn : sqlite3) (a b c d : c_float) : sqlite3_stmt :=
  {| st_conn := conn; st_sql := INSERT_SQL; st_params := bound_params a b c d;
     st_cursor := None; st_row := None; st_rc := SQLITE_OK |}.

(** The rows a query has yet to return. *)
Definition pending (st : sqlite3_stmt) (t : table) : option (list row) :=
  match st_cursor st with
  | Some rs => Some rs
  | None => result_set st t
  end.

Definition is_select (s : sql) : Prop := s = SELECT_LATEST_SQL ∨ s = SELECT_N_SQL.

(** A statement pointer as the read functions hold it: NULL, or one of the
    two queries. *)
Definition query (stmt : option sqlite3_stmt) : Prop :=
  match stmt with
  | None => True
  | Some st => is_select (st_sql st)
  end.

(** The rows that the loop of [sensors_db_read_n] copies when [rs] are
    pending and [count] entries are filled: it copies a row and only then
    compares the new count with [max_samples]. *)
Fixpoint copied (rs : list row) (max_samples count : Z) : list row :=
  match rs with
  | [] => []
  | r :: rest =>
      r :: (if decide (count + 1 >= max_samples) then []
            else copied rest max_samples (count + 1))
  end.

(** Whether that loop ends on a step that returns no row, rather than on
    its [break]. *)
Fixpoint runs_dry (rs : list row) (max_samples count : Z) : bool :=
  match rs with
  | [] => true
  | r :: rest =>
      if decide (count + 1 >= max_samples) then false
      else runs_dry rest max_samples (count + 1)
  end.

(** The files after [sqlite3_open_v2] with the CREATE flag. *)
Definition files_opened (filename : string) (w : world)
  : gmap string (option table) :=
  match w_files w !! filename with
  | Some _ => w_files w
  | None => <[filename := None]> (w_files w)
  end.

(** The files after the table creation. *)
Definition files_with_table (filename : string) (w : world)
  : gmap string (option table) :=
  match w_files w !! filename with
  | Some (Some _) => w_files w
  | _ => <[filename := Some empty_table]> (w_files w)
  end.

(** The flags [sensors_db_open] passes for a role, and the handle it
    returns on success. *)
Definition open_flags (md : sensors_db_mode_t) : Z :=
  match md with
  | SENSORS_DB_CONSUMER => SQLITE_OPEN_READONLY
  | SENSORS_DB_PRODUCER => Z.lor SQLITE_OPEN_READWRITE SQLITE_OPEN_CREATE
  end.

Definition opened_handle (db_file : string) (md : sensors_db_mode_t) (limit : Z)
  : sensors_db_t :=
  {| db := Some {| conn_file := db_file;
                   conn_readonly := bool_decide (md = SENSORS_DB_CONSUMER) |};
     data_limit := limit; mode := md |}.

(** The environment inflicts no fault on the coming engine calls. *)
Definition quiet (w : world) : Prop := Forall (fun f => f = None) (w_faults w).

(** The [n]-th of the coming engine calls that can fail (counted from 0)
    meets no fault. *)
Definition no_fault_at (n : nat) (w : world) : Prop :=
  mjoin (w_faults w !! n) = None.

(** A table as SQLite keeps it: rows stored by increasing rowid, a PRIMARY
    KEY, none above the AUTOINCREMENT counter. *)
Definition id_lt (r1 r2 : row) : Prop := row_id r1 < row_id r2.

Definition wf_table (t : table) : Prop :=
  StronglySorted id_lt (tbl_rows t) ∧ Forall (fun r => row_id r <= tbl_seq t) (tbl_rows t).

(** The sample that the six assignments of the read functions make of a
    row, in an entry that held [old]. *)
Definition sample_of_row (r : row) (old : sensors_sample_t) : sensors_sample_t :=
  {| sample_id := to_int (row_id r);
     sample_timestamp := strncpy (sample_timestamp old) (row_timestamp r) sizeof_timestamp;
     sample_bmp280_temperature :=
       float_of_double (double_of_column (row_bmp280_temperature r));
     sample_bmp280_pressure :=
       float_of_double (double_of_column (row_bmp280_pressure r));
     sample_htu21d_temperature :=
       float_of_double (double_of_column (row_htu21d_temperature r));
     sample_htu21d_humidity :=
       float_of_double (double_of_column (row_htu21d_humidity r)) |}.

(** The array after the rows [rs] were copied into the entries [i],
    [i+1], ... *)
Fixpoint store_rows (rs : list row) (i : nat) (out_array : list sensors_sample_t)
  : list sensors_sample_t :=
  match rs with
  | [] => out_array
  | r :: rest => store_rows rest (S i) (alter (sample_of_row r) i out_array)
  end.

(** The four measurements of a [store] call, the REAL columns of a row,
    and what a store leaves in them for a measurement: the [float]
    promoted to [double], NULL for a NaN. *)
Definition measurements : Type := c_float * c_float * c_float * c_float.

Definition row_reals (r : row)
  : option c_double * option c_double * option c_double * option c_double :=
  (row_bmp280_temperature r, row_bmp280_pressure r,
   row_htu21d_temperature r, row_htu21d_humidity r).

Definition stored_double (d : c_double) : option c_double :=
  if double_is_nan d then None else Some d.

Definition bound_reals (m : measurements)
  : option c_double * option c_double * option c_double * option c_double :=
  let '(a, b, c, d) := m in
  (stored_double (double_of_float a), stored_double (double_of_float b),
   stored_double (double_of_float c), stored_double (double_of_float d)).


(** Between two calls of this process the environment moves on: the clock
    advances, other faults lie ahead.  The files stay as they are: the
    store has a single writer. *)
Definition env_step (w w' : world) : Prop :=
  w_files w' = w_files w ∧ w_trace w' = w_trace w.

(** A sequence of successful [sensors_db_store_data] calls on one handle,
    one per entry of the list, in order. *)
Inductive stores_ok (self : sensors_db_t) : list measurements -> world -> world -> Prop :=
  | stores_ok_nil w : stores_ok self [] w w
  | stores_ok_cons a b c d ms w w1 w2 w3 :
      env_step w w1 ->
      sensors_db_store_data self a b c d w1 = (0, w2) ->
      stores_ok self ms w2 w3 ->
      stores_ok self ((a, b, c, d) :: ms) w w3.

End Store.

Arguments row : clear implicits.
Arguments table : clear implicits.
Arguments value : clear implicits.
Arguments sqlite3_stmt : clear implicits.
Arguments event : clear implicits.
Arguments world : clear implicits.
Arguments sensors_sample_t : clear implicits.
Arguments outcome : clear implicits.
Arguments measurements : clear implicits.
Arguments Returned {_ _} a w.
Arguments Undefined {_ _}.

(** ** Concrete stores

    Worlds, handles and arrays on which the functions are run.  Integers
    stand for the floating-point values. *)

Module Scenario.

(** Measurements as integers (hundredths, say): no NaN among them. *)
#[global] Instance Z_floats : Floats Z Z :=
  {| double_of_float := id; float_of_double := id; double_of_Z := id;
     double_is_nan := fun _ => false |}.

Definition mk_row (i : Z) (ts : string) (a b c d : Z) : row Z :=
  {| row_id := i; row_timestamp := ts;
     row_bmp280_temperature := Some a; row_bmp280_pressure := Some b;
     row_htu21d_temperature := Some c; row_htu21d_humidity := Some d |}.

Definition row1 : row Z := mk_row 1 "2024-05-01 10:00:00" 205 10132 210 553.
Definition row2 : row Z := mk_row 2 "2024-05-01 10:01:00" 206 10131 211 552.
Definition row3 : row Z := mk_row 3 "2024-05-01 10:02:00" 207 10130 212 551.

(** A row whose timestamp text has 40 characters. *)
Definition row_long : row Z :=
  mk_row 1 "2024-05-01T10:00:00.000000+00:00 (local)" 205 10132 210 553.

Definition path : string := "/var/lib/sensors.db".

Definition conn_rw : sqlite3 := {| conn_file := path; conn_readonly := false |}.
Definition conn_ro : sqlite3 := {| conn_file := path; conn_readonly := true |}.

Definition producer (limit : Z) : sensors_db_t :=
  {| db := Some conn_rw; data_limit := limit; mode := SENSORS_DB_PRODUCER |}.

Definition consumer : sensors_db_t :=
  {| db := Some conn_ro; data_limit := 0; mode := SENSORS_DB_CONSUMER |}.

Definition table_with (rs : list (row Z)) (seq : Z) : table Z :=
  {| tbl_rows := rs; tbl_seq := seq |}.

(** The world with one store file at [path] holding [content], and the
    faults [faults] ahead. *)
Definition world_with (content : option (table Z)) (faults : list (option fault))
  : world Z :=
  {| w_files := {[ path := content ]};
     w_dirs := {[ dirname path ]};
     w_now := "2024-05-01 10:03:00";
     w_calloc_fails := false;
     w_faults := faults;
     w_trace := [] |}.

(** The world without any file. *)
Definition world_empty : world Z :=
  {| w_files := ∅;
     w_dirs := {[ dirname path ]};
     w_now := "2024-05-01 10:03:00";
     w_calloc_fails := false;
     w_faults := [];
     w_trace := [] |}.

Definition blank : sensors_sample_t Z :=
  {| sample_id := 0; sample_timestamp := replicate sizeof_timestamp NUL;
     sample_bmp280_temperature := 0; sample_bmp280_pressure := 0;
     sample_htu21d_temperature := 0; sample_htu21d_humidity := 0 |}.

(** The world after two stores on an empty table, without retention
    limit. *)
Definition stored_twice : world Z :=
  let w := world_with (Some (table_with [] 0)) [] in
  (sensors_db_store_data (producer 0) 5 6 7 8
     (sensors_db_store_data (producer 0) 1 2 3 4 w).2).2.

(** The world after two stores on a table of three rows, with a
    retention limit of 2. *)
Definition stored_twice_keep2 : world Z :=
  let w := world_with (Some (table_with [row1; row2; row3] 3)) [] in
  (sensors_db_store_data (producer 2) 5 6 7 8
     (sensors_db_store_data (producer 2) 1 2 3 4 w).2).2.


(** A floating-point type with a NaN, for runs that store one: a number
    or NaN, [float] and [double] alike. *)
Inductive num := NaN | Num (z : Z).

#[global] Instance num_floats : Floats num num :=
  {| double_of_float := id; float_of_double := id; double_of_Z := Num;
     double_is_nan := fun x => match x with NaN => true | Num _ => false end |}.





End Scenario.

(** ** Properties *)

Section Properties.

Context {c_float c_double : Type} `{!Floats c_float c_double}.

Implicit Types (w : world c_double) (t : table c_double) (r : row c_double).
Implicit Types (st : sqlite3_stmt c_double) (self : sensors_db_t).
Implicit Types (rs : list (row c_double)) (max_samples count : Z).

(** *** The world after a call *)

Ltac run := cbv [mbind M_bind mret M_ret log fprintf_stderr].

(** Membership of an event in an explicit trace. *)
Ltac absent H :=
  cbn [bind_events app] in H;
  repeat (apply elem_of_cons in H as [H|H]; [congruence|]);
  by apply elem_of_nil in H.

Ltac present :=
  cbn [bind_events app];
  repeat first [apply list_elem_of_here | apply list_elem_of_further].

Lemma next_fault_eq w :
  next_fault w = (mjoin (head (w_faults w)), set_faults (tail (w_faults w)) w).
Proof. unfold next_fault. destruct w as [? ? ? ? [|f fs] ?]; reflexivity. Qed.

Lemma fault_rc_not_ok f : fault_rc f ≠ SQLITE_OK.
Proof. by destruct f. Qed.

Lemma fault_rc_not_row f : fault_rc f ≠ SQLITE_ROW.
Proof. by destruct f. Qed.

Lemma fault_rc_not_done f : fault_rc f ≠ SQLITE_DONE.
Proof. by destruct f. Qed.

Lemma quiet_head w : quiet w → mjoin (head (w_faults w)) = None.
Proof. unfold quiet. destruct (w_faults w) as [|f fs]; [done|]. by inversion 1. Qed.

Lemma quiet_after e w : quiet w → quiet (after e w).
Proof.
  unfold quiet, after. simpl. destruct (w_faults w); [done|]. by inversion 1.
Qed.

(** [sqlite3_prepare_v2]: an error and no statement, or SQLITE_OK and a
    fresh statement on an existing table. *)
Lemma prepare_cases dbc s w :
  (∃ rc, rc ≠ SQLITE_OK ∧
         sqlite3_prepare_v2 dbc s w = ((rc, None), after (EvPrepare s rc) w))
  ∨ (∃ c t, dbc = Some c ∧ table_of c w = Some t ∧ mjoin (head (w_faults w)) = None ∧
            sqlite3_prepare_v2 dbc s w
            = ((SQLITE_OK, Some (new_stmt c s)), after (EvPrepare s SQLITE_OK) w)).
Proof.
  unfold sqlite3_prepare_v2. run. rewrite next_fault_eq.
  destruct (mjoin (head (w_faults w))) as [e|] eqn:Hf.
  { left. exists (fault_rc e). split; [apply fault_rc_not_ok|done]. }
  destruct dbc as [c|]; [|left; by exists SQLITE_MISUSE].
  change (table_of c (set_faults (tail (w_faults w)) w)) with (table_of c w).
  destruct (table_of c w) as [t|] eqn:Ht.
  - right. by exists c, t.
  - left. by exists SQLITE_ERROR.
Qed.

(** With the table in place and no fault ahead the statement compiles. *)
Lemma prepare_ok conn s w t :
  table_of conn w = Some t → mjoin (head (w_faults w)) = None →
  sqlite3_prepare_v2 (Some conn) s w
  = ((SQLITE_OK, Some (new_stmt conn s)), after (EvPrepare s SQLITE_OK) w).
Proof.
  intros Ht Hf. unfold sqlite3_prepare_v2. run. rewrite next_fault_eq, Hf.
  change (table_of conn (set_faults (tail (w_faults w)) w)) with (table_of conn w).
  by rewrite Ht.
Qed.

(** *** [strncpy] *)

(** Exactly [n] bytes are stored, whatever the source. *)
Lemma length_strncpy_bytes src n : length (strncpy_bytes src n) = n.
Proof.
  revert src. induction n as [|n IH]; intros src; [done|].
  destruct src as [|ch rest]; simpl; [by rewrite IH|].
  destruct (Ascii.eqb ch NUL); simpl; by rewrite IH.
Qed.

Lemma length_strncpy dst src n :
  (n ≤ length dst)%nat → length (strncpy dst src n) = length dst.
Proof.
  intros Hn. unfold strncpy. rewrite length_app, length_strncpy_bytes, length_drop. lia.
Qed.



(** A text with [n] characters or more before any NUL fills the [n] bytes:
    its first [n] characters are stored and no terminator. *)
Lemma strncpy_bytes_long src n :
  NUL ∉ take n (list_ascii_of_string src) → (n ≤ String.length src)%nat →
  strncpy_bytes src n = take n (list_ascii_of_string src)
  ∧ c_string (strncpy_bytes src n) = None.
Proof.
  revert src. induction n as [|n IH]; intros src Hnul Hlen; [done|].
  destruct src as [|ch rest]; [simpl in Hlen; lia|]. simpl in *.
  apply not_elem_of_cons in Hnul as [Hch Hrest].
  destruct (Ascii.eqb_spec ch NUL) as [->|_]; [done|].
  destruct (IH rest) as [Heq Hc]; [done|lia|]. split.
  - by rewrite Heq.
  - simpl. destruct (Ascii.eqb_spec ch NUL) as [->|_]; [done|]. by rewrite Hc.
Qed.

(** *** The queries of db.c on a table *)

#[local] Instance id_desc_total : Total (@id_desc c_double).
Proof. intros r1 r2. unfold id_desc. lia. Qed.

#[local] Instance id_desc_trans : Transitive (@id_desc c_double).
Proof. intros r1 r2 r3. unfold id_desc. lia. Qed.

Lemma order_by_id_desc_perm (rs : list (row c_double)) : order_by_id_desc rs ≡ₚ rs.
Proof. apply merge_sort_Permutation. Qed.

Lemma length_order_by_id_desc (rs : list (row c_double)) :
  length (order_by_id_desc rs) = length rs.
Proof. apply Permutation_length, order_by_id_desc_perm. Qed.

Lemma length_select_desc_limit n t :
  Z.of_nat (length (select_desc_limit n t))
  = if decide (n < 0) then Z.of_nat (length (tbl_rows t))
    else Z.min n (Z.of_nat (length (tbl_rows t))).
Proof.
  unfold select_desc_limit, sql_limit. case_decide.
  - by rewrite length_order_by_id_desc.
  - rewrite length_take, length_order_by_id_desc. lia.
Qed.

Lemma select_desc_limit_nil n t :
  n ≠ 0 → select_desc_limit n t = [] → tbl_rows t = [].
Proof.
  intros Hn Hs. pose proof (length_select_desc_limit n t) as Hl.
  rewrite Hs in Hl. destruct (tbl_rows t); [done|].
  case_decide; simpl in Hl; lia.
Qed.

(** On a table kept by increasing rowid, descending order is the storage
    order reversed. *)
Lemma order_by_id_desc_sorted (rs : list (row c_double)) :
  StronglySorted id_lt rs → order_by_id_desc rs = reverse rs.
Proof.
  intros Hs.
  assert (Hrev : StronglySorted id_desc (reverse rs)).
  { induction Hs as [|r rs Hs IH Hr]; [constructor|].
    rewrite reverse_cons. apply StronglySorted_app. split_and!.
    - intros r1 r2 H1 ->%list_elem_of_singleton.
      rewrite elem_of_reverse in H1. rewrite Forall_forall in Hr.
      specialize (Hr r1 H1). unfold id_desc, id_lt in *. lia.
    - done.
    - repeat constructor. }
  apply StronglySorted_unique_strong with (R := id_desc).
  - intros r1 r2 H1 H2 H12 H21.
    unfold order_by_id_desc in H1.
    rewrite merge_sort_Permutation in H1. rewrite elem_of_reverse in H2.
    assert (Hid : row_id r1 = row_id r2) by (unfold id_desc in *; lia).
    clear H12 H21 Hrev. induction Hs as [|r rs Hs IH Hr]; [by apply elem_of_nil in H1|].
    rewrite Forall_forall in Hr. unfold id_lt in Hr.
    apply elem_of_cons in H1 as [->|H1], H2 as [->|H2]; try done.
    + specialize (Hr _ H2). lia.
    + specialize (Hr _ H1). lia.
    + by apply IH.
  - apply StronglySorted_merge_sort; apply _.
  - done.
  - unfold order_by_id_desc. by rewrite merge_sort_Permutation, reverse_Permutation.
Qed.

(** *** Insertion and trim on a well-formed table *)

Lemma filter_all {A} (P : A → Prop) `{!∀ x, Decision (P x)} (l : list A) :
  Forall P l → filter P l = l.
Proof.
  induction 1 as [|x l Hx Hl IH]; [done|].
  by rewrite filter_cons_True, IH.
Qed.

Lemma filter_none {A} (P : A → Prop) `{!∀ x, Decision (P x)} (l : list A) :
  Forall (fun x => ¬ P x) l → filter P l = [].
Proof.
  induction 1 as [|x l Hx Hl IH]; [done|].
  by rewrite filter_cons_False, IH.
Qed.

(** The REAL columns of the row that a store inserts. *)
Lemma real_column_bound_double (d : c_double) :
  real_column (bound_double d) = stored_double d.
Proof. unfold bound_double, stored_double. by destruct (double_is_nan d). Qed.

Lemma new_row_reals now (a b c d : c_float) t :
  row_reals (new_row now (bound_params a b c d) t) = bound_reals (a, b, c, d).
Proof.
  unfold row_reals, new_row, bound_params, bound_reals. simpl.
  by rewrite !real_column_bound_double.
Qed.

Lemma insert_row_wf now params t :
  wf_table t → wf_table (insert_row now params t).
Proof.
  intros [Hs Hb]. unfold wf_table, insert_row. simpl. split.
  - apply StronglySorted_app. split_and!; [|done|repeat constructor].
    intros r1 r2 H1 ->%list_elem_of_singleton.
    rewrite Forall_forall in Hb. specialize (Hb _ H1). unfold id_lt. simpl. lia.
  - apply Forall_app. split.
    + eapply Forall_impl; [exact Hb|]. simpl. intros. lia.
    + repeat constructor. simpl. lia.
Qed.

(** On a table kept by increasing rowid, the trim keeps the last [n] rows
    of the storage order. *)
Lemma delete_not_in_latest_sorted n t :
  StronglySorted id_lt (tbl_rows t) → 0 <= n →
  tbl_rows (delete_not_in_latest n t)
  = drop (length (tbl_rows t) - Z.to_nat n) (tbl_rows t).
Proof.
  intros Hs Hn. unfold delete_not_in_latest, select_desc_limit, sql_limit. simpl.
  rewrite decide_False by lia.
  rewrite order_by_id_desc_sorted, take_reverse by done.
  set (k := (length (tbl_rows t) - Z.to_nat n)%nat).
  rewrite <-(take_drop k (tbl_rows t)) in Hs.
  apply StronglySorted_app in Hs as (Hlt & _ & Hs2).
  rewrite <-(take_drop k (tbl_rows t)) at 1.
  rewrite filter_app, filter_none, filter_all; [done|..].
  - apply Forall_forall. intros r Hr.
    apply list_elem_of_fmap_2. by rewrite elem_of_reverse.
  - apply Forall_forall. intros r Hr Hin.
    apply list_elem_of_fmap in Hin as (r' & Hid & Hr').
    rewrite elem_of_reverse in Hr'. specialize (Hlt _ _ Hr Hr').
    unfold id_lt in Hlt. lia.
Qed.

Lemma delete_not_in_latest_wf n t :
  wf_table t → 0 <= n → wf_table (delete_not_in_latest n t).
Proof.
  intros [Hs Hb] Hn. split.
  - rewrite delete_not_in_latest_sorted by done.
    rewrite <-(take_drop (length (tbl_rows t) - Z.to_nat n) (tbl_rows t)) in Hs.
    by apply StronglySorted_app in Hs as (_ & _ & Hs2).
  - rewrite delete_not_in_latest_sorted by done.
    apply Forall_forall. intros r Hr. rewrite Forall_forall in Hb.
    apply Hb. by eapply subseteq_drop.
Qed.

(** *** [sensors_db_store_data], case by case *)

Lemma bind_value_ok st i (v : value c_double) :
  1 <= i <= Z.of_nat (length (st_params st)) →
  bind_value (Some st) i v = (SQLITE_OK, Some (set_param i v st)).
Proof. intros Hi. unfold bind_value. by rewrite decide_True. Qed.

Lemma store_producer_eq self a b c d w conn t :
  mode self = SENSORS_DB_PRODUCER →
  db self = Some conn → table_of conn w = Some t →
  mjoin (head (w_faults w)) = None →
  sensors_db_store_data self a b c d w =
    let w1 := set_trace (bind_events a b c d ++ EvPrepare INSERT_SQL SQLITE_OK :: w_trace w)
                (set_faults (tail (w_faults w)) w) in
    let '(_, stmt, w2) := sqlite3_step (Some (insert_stmt conn a b c d)) w1 in
    let '(rc, w3) := sqlite3_finalize stmt w2 in
    if decide (rc ≠ SQLITE_OK) then (-1, w3)
    else if decide (data_limit self > 0)
         then (0, (sqlite3_exec (Some conn) (TRIM_SQL (data_limit self)) w3).2)
         else (0, w3).
Proof.
  intros Hm Hdb Ht Hf. unfold sensors_db_store_data.
  rewrite decide_False by (by rewrite Hm; intros []).
  run. rewrite Hdb, (prepare_ok conn INSERT_SQL w t) by done.
  rewrite decide_False by (by intros []).
  unfold sqlite3_bind_double. run.
  rewrite !bind_value_ok by (simpl; lia).
  change (set_param 4 _ _) with (insert_stmt conn a b c d).
  unfold after. simpl.
  destruct (sqlite3_step _ _) as [[rcs stmt] w2].
  repeat case_decide; try done.
  by destruct (sqlite3_exec (Some conn) _ _).
Qed.

Lemma table_of_Some c w t :
  table_of c w = Some t ↔ w_files w !! conn_file c = Some (Some t).
Proof. unfold table_of. destruct (w_files w !! conn_file c) as [[?|]|]; naive_solver. Qed.

Lemma table_of_files c w w' x :
  w_files w' = <[conn_file c := Some x]> (w_files w) → table_of c w' = Some x.
Proof. intros Hf. apply table_of_Some. by rewrite Hf, lookup_insert_eq. Qed.

Lemma table_of_same_files c w w' :
  w_files w' = w_files w → table_of c w' = table_of c w.
Proof. unfold table_of. by intros ->. Qed.

(** A step of the INSERT statement: an error and nothing written, or
    SQLITE_DONE and the new row in the table. *)
Lemma step_insert_cases st w :
  st_sql st = INSERT_SQL →
  (∃ rc, rc ≠ SQLITE_OK ∧ rc ≠ SQLITE_ROW ∧ rc ≠ SQLITE_DONE ∧
         sqlite3_step (Some st) w
         = ((rc, Some (stepped st (st_cursor st) None rc)), after (EvStep rc) w))
  ∨ (∃ t, table_of (st_conn st) w = Some t ∧ conn_readonly (st_conn st) = false ∧
          tbl_seq t < MAX_ROWID ∧ mjoin (head (w_faults w)) = None ∧
          sqlite3_step (Some st) w
          = ((SQLITE_DONE, Some (stepped st (st_cursor st) None SQLITE_DONE)),
             set_files (<[conn_file (st_conn st) :=
                            Some (insert_row (w_now w) (st_params st) t)]> (w_files w))
               (after (EvStep SQLITE_DONE) w))).
Proof.
  intros Hsql. unfold sqlite3_step. run. rewrite next_fault_eq.
  destruct (mjoin (head (w_faults w))) as [e|] eqn:Hf.
  { left. exists (fault_rc e).
    repeat split; auto using fault_rc_not_ok, fault_rc_not_row, fault_rc_not_done. }
  unfold step_sql. rewrite Hsql.
  change (table_of (st_conn st) (set_faults (tail (w_faults w)) w))
    with (table_of (st_conn st) w).
  destruct (table_of (st_conn st) w) as [t|] eqn:Ht; [|left; by exists SQLITE_ERROR].
  destruct (conn_readonly (st_conn st)) eqn:Hro; [left; by exists SQLITE_READONLY|].
  case_decide; [left; by exists SQLITE_FULL|].
  right. exists t. split_and!; try done; lia.
Qed.

(** The trim run through [sqlite3_exec]: an error and nothing deleted, or
    SQLITE_OK and the table trimmed. *)
Lemma exec_trim_cases c n w :
  (∃ rc, rc ≠ SQLITE_OK ∧
         sqlite3_exec (Some c) (TRIM_SQL n) w = (rc, after (EvExec (TRIM_SQL n) rc) w))
  ∨ (∃ t, table_of c w = Some t ∧ mjoin (head (w_faults w)) = None ∧
          sqlite3_exec (Some c) (TRIM_SQL n) w
          = (SQLITE_OK,
             set_files (<[conn_file c := Some (delete_not_in_latest n t)]> (w_files w))
               (after (EvExec (TRIM_SQL n) SQLITE_OK) w))).
Proof.
  unfold sqlite3_exec. run. rewrite next_fault_eq.
  destruct (mjoin (head (w_faults w))) as [e|] eqn:Hf.
  { left. exists (fault_rc e). split; [apply fault_rc_not_ok|done]. }
  unfold exec_sql.
  change (w_files (set_faults (tail (w_faults w)) w)) with (w_files w).
  destruct (w_files w !! conn_file c) as [[t|]|] eqn:Hl.
  - destruct (conn_readonly c); [left; by exists SQLITE_READONLY|].
    right. exists t. by rewrite table_of_Some.
  - left. by exists SQLITE_ERROR.
  - left. by exists SQLITE_IOERR.
Qed.

(** The runs of [sensors_db_store_data]: what is returned, what the files
    hold and what was called, for each way through the function. *)
Lemma store_cases self a b c d w :
  let r := sensors_db_store_data self a b c d w in
  let called := bind_events a b c d ++ EvPrepare INSERT_SQL SQLITE_OK :: w_trace w in
  (mode self ≠ SENSORS_DB_PRODUCER ∧ r.1 = -1 ∧ w_files r.2 = w_files w ∧
   w_trace r.2 = EvStderr ("DB is read-only" +:+ newline) :: w_trace w)
  ∨ (mode self = SENSORS_DB_PRODUCER ∧
     ∃ rc, rc ≠ SQLITE_OK ∧ r.1 = -1 ∧ w_files r.2 = w_files w ∧
           w_trace r.2 = EvPrepare INSERT_SQL rc :: w_trace w)
  ∨ (mode self = SENSORS_DB_PRODUCER ∧
     ∃ rc, rc ≠ SQLITE_OK ∧ r.1 = -1 ∧ w_files r.2 = w_files w ∧
           w_trace r.2 = EvFinalize rc :: EvStep rc :: called)
  ∨ (mode self = SENSORS_DB_PRODUCER ∧
     ∃ conn t, db self = Some conn ∧ table_of conn w = Some t ∧ r.1 = 0 ∧
       let t1 := insert_row (w_now w) (bound_params a b c d) t in
       (data_limit self <= 0 ∧
        w_files r.2 = <[conn_file conn := Some t1]> (w_files w) ∧
        w_trace r.2 = EvFinalize SQLITE_OK :: EvStep SQLITE_DONE :: called)
       ∨ (data_limit self > 0 ∧
          ∃ rc, w_trace r.2 = EvExec (TRIM_SQL (data_limit self)) rc
                              :: EvFinalize SQLITE_OK :: EvStep SQLITE_DONE :: called ∧
                (rc ≠ SQLITE_OK ∧ w_files r.2 = <[conn_file conn := Some t1]> (w_files w)
                 ∨ rc = SQLITE_OK ∧
                   w_files r.2 = <[conn_file conn :=
                                     Some (delete_not_in_latest (data_limit self) t1)]>
                                   (w_files w)))).
Proof.
  intros r called. subst r called.
  destruct (decide (mode self ≠ SENSORS_DB_PRODUCER)) as [Hm|Hm].
  { left. unfold sensors_db_store_data. by rewrite decide_True. }
  apply dec_stable in Hm. right.
  destruct (prepare_cases (db self) INSERT_SQL w)
    as [(rc & Hrc & Hp)|(conn & t & Hdb & Ht & Hf & _)].
  { left. split; [done|]. exists rc. unfold sensors_db_store_data.
    rewrite decide_False by (by rewrite Hm; intros []). run. rewrite Hp.
    by rewrite decide_True. }
  right. rewrite (store_producer_eq _ _ _ _ _ _ conn t) by done. cbv zeta.
  set (w1 := set_trace _ _).
  destruct (step_insert_cases (insert_stmt conn a b c d) w1 eq_refl)
    as [(rc & Hrc & Hrow & Hdone & ->)|(t' & Ht' & Hro & Hseq & Hf' & ->)].
  { left. split; [done|]. exists rc. unfold sqlite3_finalize. run. simpl.
    destruct (decide (rc = SQLITE_ROW ∨ rc = SQLITE_DONE)) as [[?|?]|_]; [done..|].
    by rewrite decide_True. }
  right. split; [done|]. exists conn, t.
  change (table_of conn w = Some t') in Ht'.
  rewrite Ht in Ht'. injection Ht' as <-.
  unfold sqlite3_finalize. run. simpl.
  case_decide as Hl; simpl.
  - split_and!; [done..|]. right. split; [done|].
    match goal with |- context [sqlite3_exec _ _ ?w0] => set (w3 := w0) end.
    destruct (exec_trim_cases conn (data_limit self) w3)
      as [(rc & Hrc & ->)|(t3 & Ht3 & Hf3 & ->)].
    + exists rc. simpl. split; [done|]. by left.
    + exists SQLITE_OK. simpl. split; [done|]. right. split; [done|].
      rewrite table_of_Some in Ht3. subst w3. simpl in Ht3.
      rewrite lookup_insert_eq in Ht3. injection Ht3 as <-.
      by rewrite insert_insert_eq.
  - split_and!; [done..|]. left. split_and!; [lia|done..].
Qed.

Lemma store_returns_0_or_minus_1 self a b c d w :
  (sensors_db_store_data self a b c d w).1 = 0
  ∨ (sensors_db_store_data self a b c d w).1 = -1.
Proof.
  destruct (store_cases self a b c d w)
    as [(_ & -> & _)
       |[(_ & rc & _ & -> & _)
        |[(_ & rc & _ & -> & _)
         |(_ & conn & t & _ & _ & -> & _)]]]; auto.
Qed.

(** Well-formedness of the table is an invariant of the write path. *)
Lemma store_preserves_wf self a b c d w conn t :
  db self = Some conn → table_of conn w = Some t → wf_table t →
  ∃ t', table_of conn (sensors_db_store_data self a b c d w).2 = Some t' ∧ wf_table t'.
Proof.
  intros Hdb Ht Hwf.
  pose proof (insert_row_wf (w_now w) (bound_params a b c d) t Hwf) as Hwf1.
  destruct (store_cases self a b c d w)
    as [(_ & _ & Hfiles & _)
       |[(_ & rc & _ & _ & Hfiles & _)
        |[(_ & rc & _ & _ & Hfiles & _)
         |(_ & conn' & t' & Hdb' & Ht' & _ &
           [(_ & Hfiles & _)|(Hl & rc & _ & [[_ Hfiles]|[_ Hfiles]])])]]].
  1-3: exists t; by rewrite (table_of_same_files _ _ _ Hfiles).
  all: rewrite Hdb in Hdb'; injection Hdb' as <-; rewrite Ht in Ht'; injection Ht' as <-.
  - eexists. split; [by apply (table_of_files _ w)|done].
  - eexists. split; [by apply (table_of_files _ w)|done].
  - eexists. split; [by apply (table_of_files _ w)|].
    apply delete_not_in_latest_wf; [done|lia].
Qed.

(** *** Steps of a query *)

Lemma copy_row_current st r (out : sensors_sample_t c_float) :
  st_row st = Some r → copy_row (Some st) out = sample_of_row r out.
Proof.
  intros Hr. unfold copy_row, sample_of_row, sqlite3_column_int, sqlite3_column_text,
    sqlite3_column_double. simpl. by rewrite Hr.
Qed.

(** A step that meets a fault returns its code and no row. *)
Lemma step_fault st w e :
  mjoin (head (w_faults w)) = Some e →
  sqlite3_step (Some st) w
  = ((fault_rc e, Some (stepped st (st_cursor st) None (fault_rc e))),
     after (EvStep (fault_rc e)) w).
Proof. intros Hf. unfold sqlite3_step. run. by rewrite next_fault_eq, Hf. Qed.

(** A step of a query that meets no fault returns the next pending row,
    or SQLITE_DONE. *)
Lemma step_select st w t rs :
  is_select (st_sql st) →
  mjoin (head (w_faults w)) = None →
  table_of (st_conn st) w = Some t →
  pending st t = Some rs →
  sqlite3_step (Some st) w
  = (((step_cursor st rs).1, Some (step_cursor st rs).2),
     after (EvStep (step_cursor st rs).1) w).
Proof.
  intros Hsel Hf Ht Hp. unfold sqlite3_step. run. rewrite next_fault_eq, Hf.
  unfold step_sql.
  change (table_of (st_conn st) (set_faults (tail (w_faults w)) w))
    with (table_of (st_conn st) w).
  rewrite Ht. unfold pending in Hp.
  destruct Hsel as [-> | ->]; destruct (st_cursor st) as [rs'|]; simplify_eq/=;
    try rewrite Hp; by destruct (step_cursor st rs).
Qed.

(** *** [sensors_db_read_latest], case by case *)

Lemma read_latest_cases self (out : sensors_sample_t c_float) w :
  let r := sensors_db_read_latest self out w in
  (∃ rc, rc ≠ SQLITE_OK ∧ r.1 = (-1, out) ∧ w_files r.2 = w_files w ∧
         w_trace r.2 = EvPrepare SELECT_LATEST_SQL rc :: w_trace w)
  ∨ (∃ rc rcf, rc ≠ SQLITE_ROW ∧ r.1 = (-1, out) ∧ w_files r.2 = w_files w ∧
       w_trace r.2 = EvFinalize rcf :: EvStep rc
                     :: EvPrepare SELECT_LATEST_SQL SQLITE_OK :: w_trace w ∧
       (rc = SQLITE_DONE →
        ∃ conn t, db self = Some conn ∧ table_of conn w = Some t ∧ tbl_rows t = []))
  ∨ (∃ conn t r0 rest, db self = Some conn ∧ table_of conn w = Some t ∧
       select_desc_limit 1 t = r0 :: rest ∧
       r.1 = (SQLITE_OK, sample_of_row r0 out) ∧ w_files r.2 = w_files w ∧
       w_trace r.2 = EvFinalize SQLITE_OK :: EvStep SQLITE_ROW
                     :: EvPrepare SELECT_LATEST_SQL SQLITE_OK :: w_trace w).
Proof.
  intros r. subst r. unfold sensors_db_read_latest. run.
  destruct (prepare_cases (db self) SELECT_LATEST_SQL w)
    as [(rc & Hrc & ->)|(conn & t & Hdb & Ht & Hf & ->)].
  { left. exists rc. by rewrite decide_True. }
  right. rewrite decide_False by (by intros []).
  set (w1 := after _ w). set (st := new_stmt conn SELECT_LATEST_SQL).
  destruct (mjoin (head (w_faults w1))) as [e|] eqn:Hf1.
  { left. rewrite (step_fault _ _ e) by done.
    rewrite decide_True by apply fault_rc_not_row.
    exists (fault_rc e), (fault_rc e). unfold sqlite3_finalize. run. simpl.
    destruct (decide (fault_rc e = SQLITE_ROW ∨ fault_rc e = SQLITE_DONE)) as [[?|?]|_].
    - by destruct e.
    - by destruct e.
    - split_and!; try done; [apply fault_rc_not_row|by destruct e]. }
  rewrite (step_select st w1 t (select_desc_limit 1 t)) by (done || by left).
  destruct (select_desc_limit 1 t) as [|r0 rest] eqn:Hsel; simpl.
  - left. exists SQLITE_DONE, SQLITE_OK. split_and!; try done.
    intros _. exists conn, t. split_and!; try done.
    by apply (select_desc_limit_nil 1).
  - right. exists conn, t, r0, rest. by split_and!.
Qed.

(** *** The loop of [sensors_db_read_n] *)

Lemma read_n_loop_once stmt (out_array : list (sensors_sample_t c_float)) max_samples count w :
  read_n_loop stmt out_array max_samples count w =
    let '(rc, stmt', w') := sqlite3_step stmt w in
    if decide (rc = SQLITE_ROW) then
      match out_array !! Z.to_nat count with
      | None => Undefined
      | Some out =>
          let out_array' := <[Z.to_nat count := copy_row stmt' out]> out_array in
          if decide (count + 1 >= max_samples)
          then Returned (stmt', out_array', count + 1) w'
          else read_n_loop stmt' out_array' max_samples (count + 1) w'
      end
    else Returned (stmt', out_array, count) w'.
Proof.
  funelim (read_n_loop stmt out_array max_samples count w).
  all: rewrite Hstep; cbn beta iota.
  - rewrite decide_False by assumption. reflexivity.
  - destruct (decide (rc = SQLITE_ROW)); [|congruence]. by rewrite Heq.
  - destruct (decide (rc = SQLITE_ROW)); [|congruence]. by rewrite Heq.
Qed.

Lemma insert_alter_lookup {A} (f : A → A) (l : list A) i x :
  l !! i = Some x → <[i := f x]> l = alter f i l.
Proof.
  intros Hl. rewrite list_insert_alter. apply list_alter_ext; [|done].
  intros y Hy. congruence.
Qed.

Lemma length_store_rows rs i (out_array : list (sensors_sample_t c_float)) :
  length (store_rows rs i out_array) = length out_array.
Proof.
  revert i out_array. induction rs as [|r rs IH]; intros i out_array; simpl; [done|].
  by rewrite IH, length_alter.
Qed.

(** With no fault ahead the loop copies [copied rs max_samples count],
    one step each, and leaves the statement without error. *)
Lemma read_n_loop_quiet max_samples rs :
  ∀ st (out_array : list (sensors_sample_t c_float)) count w t,
    is_select (st_sql st) → quiet w →
    table_of (st_conn st) w = Some t → pending st t = Some rs →
    0 <= count →
    (Z.to_nat count + length (copied rs max_samples count) ≤ length out_array)%nat →
    ∃ st' w',
      read_n_loop (Some st) out_array max_samples count w
      = Returned (Some st',
                  store_rows (copied rs max_samples count) (Z.to_nat count) out_array,
                  count + Z.of_nat (length (copied rs max_samples count))) w'
      ∧ st_rc st' = SQLITE_OK ∧ w_files w' = w_files w ∧ quiet w'
      ∧ w_trace w' = (if runs_dry rs max_samples count then [EvStep SQLITE_DONE] else [])
                     ++ replicate (length (copied rs max_samples count)) (EvStep SQLITE_ROW)
                     ++ w_trace w.
Proof.
  induction rs as [|r rest IH]; intros st out_array count w t Hsel Hq Ht Hp Hc Hcap.
  - rewrite read_n_loop_once, (step_select st w t []) by auto using quiet_head.
    simpl. 
    eexists _, _. split; [by rewrite Z.add_0_r|].
    split_and!; try done. by apply quiet_after.
  - rewrite read_n_loop_once, (step_select st w t (r :: rest)) by auto using quiet_head.
    cbn [step_cursor fst snd]. rewrite decide_True by done.
    cbn [copied length] in Hcap.
    destruct (lookup_lt_is_Some_2 out_array (Z.to_nat count)) as [old Hold]; [lia|].
    rewrite Hold. cbv zeta.
    rewrite (copy_row_current _ r) by done.
    rewrite (insert_alter_lookup (sample_of_row r)) by done.
    set (w1 := after _ w). set (st1 := stepped st (Some rest) (Some r) SQLITE_ROW).
    cbn [copied runs_dry store_rows length].
    destruct (decide (count + 1 >= max_samples)) as [Hge|Hlt].
    + exists st1, w1. split_and!; try done.
      by apply quiet_after.
    + destruct (IH st1 (alter (sample_of_row r) (Z.to_nat count) out_array) (count + 1) w1 t)
        as (st' & w' & -> & Hrc & Hfiles & Hq' & Htr); try done.
      * by apply quiet_after.
      * lia.
      * rewrite length_alter. simpl in Hcap. lia.
      * exists st', w'. split_and!; try done.
        -- replace (Z.to_nat (count + 1)) with (S (Z.to_nat count)) by lia.
           do 2 f_equal. simpl. lia.
        -- rewrite Htr. subst w1. simpl. f_equal.
           rewrite app_comm_cons, replicate_cons_app, <-app_assoc. done.
Qed.

(** When the fault [e] lies [k] steps ahead and the loop would have copied
    more than [k] rows, it copies [k] rows and returns on the failed
    step; the statement keeps the error for [sqlite3_finalize]. *)
Lemma read_n_loop_fault max_samples e fs (k : nat) :
  ∀ rs st (out_array : list (sensors_sample_t c_float)) count w t,
    is_select (st_sql st) →
    w_faults w = replicate k None ++ Some e :: fs →
    table_of (st_conn st) w = Some t → pending st t = Some rs →
    0 <= count →
    (k < length (copied rs max_samples count))%nat →
    (Z.to_nat count + k ≤ length out_array)%nat →
    ∃ st' w',
      read_n_loop (Some st) out_array max_samples count w
      = Returned (Some st', store_rows (take k rs) (Z.to_nat count) out_array,
                  count + Z.of_nat k) w'
      ∧ st_rc st' = fault_rc e ∧ w_files w' = w_files w ∧ w_faults w' = fs
      ∧ w_trace w' = EvStep (fault_rc e) :: replicate k (EvStep SQLITE_ROW) ++ w_trace w.
Proof.
  induction k as [|k IH]; intros rs st out_array count w t Hsel Hf Ht Hp Hc Hk Hcap.
  - rewrite read_n_loop_once, (step_fault st w e) by (by rewrite Hf).
    rewrite decide_False by apply fault_rc_not_row.
    eexists _, _. split; [by rewrite Z.add_0_r|]. split_and!; try done.
    + simpl. destruct (decide (fault_rc e = SQLITE_ROW ∨ fault_rc e = SQLITE_DONE))
        as [[?|?]|_]; [by destruct e..|done].
    + simpl. by rewrite Hf.
  - destruct rs as [|r rest]; [simpl in Hk; lia|].
    cbn [copied length] in Hk.
    destruct (decide (count + 1 >= max_samples)) as [Hge|Hlt]; [simpl in Hk; lia|].
    rewrite read_n_loop_once, (step_select st w t (r :: rest)) by (done || by rewrite Hf).
    cbn [step_cursor fst snd]. rewrite decide_True by done.
    destruct (lookup_lt_is_Some_2 out_array (Z.to_nat count)) as [old Hold]; [lia|].
    rewrite Hold. cbv zeta.
    rewrite (copy_row_current _ r), (insert_alter_lookup (sample_of_row r)) by done.
    rewrite decide_False by done.
    set (w1 := after _ w). set (st1 := stepped st (Some rest) (Some r) SQLITE_ROW).
    destruct (IH rest st1 (alter (sample_of_row r) (Z.to_nat count) out_array)
                (count + 1) w1 t)
      as (st' & w' & -> & Hrc & Hfiles & Hfs & Htr); try done.
    + subst w1. simpl. by rewrite Hf.
    + lia.
    + lia.
    + rewrite length_alter. lia.
    + exists st', w'. split_and!; try done.
      * replace (Z.to_nat (count + 1)) with (S (Z.to_nat count)) by lia.
        do 2 f_equal. lia.
      * rewrite Htr. subst w1. simpl. f_equal.
        by rewrite app_comm_cons, replicate_cons_app, <-app_assoc.
Qed.

(** *** [sensors_db_read_n] when nothing fails *)

Lemma read_n_quiet self (out_array : list (sensors_sample_t c_float)) max_samples w conn t :
  db self = Some conn → table_of conn w = Some t → quiet w →
  let rs := copied (select_desc_limit max_samples t) max_samples 0 in
  (length rs ≤ length out_array)%nat →
  ∃ w',
    sensors_db_read_n self out_array max_samples w
    = Returned (Z.of_nat (length rs), store_rows rs 0 out_array) w'
    ∧ w_files w' = w_files w
    ∧ w_trace w' = EvFinalize SQLITE_OK
                   :: (if runs_dry (select_desc_limit max_samples t) max_samples 0
                       then [EvStep SQLITE_DONE] else [])
                   ++ replicate (length rs) (EvStep SQLITE_ROW)
                   ++ EvBindInt 1 max_samples
                   :: EvPrepare SELECT_N_SQL SQLITE_OK :: w_trace w.
Proof.
  intros Hdb Ht Hq rs Hcap. unfold sensors_db_read_n.
  rewrite Hdb, (prepare_ok conn SELECT_N_SQL w t) by auto using quiet_head.
  rewrite decide_False by (by intros []).
  unfold sqlite3_bind_int. run. rewrite bind_value_ok by (simpl; lia).
  set (st := set_param 1 (VInt max_samples) (new_stmt conn SELECT_N_SQL)).
  set (w1 := set_trace _ _).
  destruct (read_n_loop_quiet max_samples (select_desc_limit max_samples t)
              st out_array 0 w1 t) as (st' & w' & -> & Hrc & Hfiles & Hq' & Htr);
    try done.
  - by right.
  - exact (quiet_after (EvPrepare SELECT_N_SQL SQLITE_OK) w Hq).
  - unfold sqlite3_finalize. run. rewrite Hrc. eexists. split_and!; try done.
    simpl. by rewrite Htr.
Qed.

Lemma copied_within max_samples rs :
  ∀ count, count + Z.of_nat (length rs) <= max_samples →
           copied rs max_samples count = rs.
Proof.
  induction rs as [|r rest IH]; intros count Hle; simpl; [done|].
  simpl in Hle. case_decide.
  - destruct rest; [done|]. simpl in Hle. lia.
  - rewrite IH; [done|lia].
Qed.

(** The loop copies at most [max_samples - count] rows, or one: [count]
    never passes [max(1, max_samples)], so the C [int] does not
    overflow. *)
Lemma copied_length_le max_samples rs :
  ∀ count, Z.of_nat (length (copied rs max_samples count)) <= Z.max 1 (max_samples - count).
Proof.
  induction rs as [|r rest IH]; intros count; cbn [copied length]; [lia|].
  case_decide; cbn [length]; [lia|].
  specialize (IH (count + 1)). lia.
Qed.

Lemma copied_break max_samples r rest count :
  count + 1 >= max_samples → copied (r :: rest) max_samples count = [r].
Proof. intros Hge. simpl. by rewrite decide_True. Qed.

Lemma runs_dry_within max_samples rs :
  ∀ count, count + Z.of_nat (length rs) <= max_samples →
           runs_dry rs max_samples count
           = bool_decide (rs = [] ∨ count + Z.of_nat (length rs) < max_samples).
Proof.
  induction rs as [|r rest IH]; intros count Hle; cbn [runs_dry].
  - symmetry. apply bool_decide_eq_true_2. by left.
  - cbn [length] in *. case_decide.
    + symmetry. apply bool_decide_eq_false_2. intros [?|?]; [done|lia].
    + rewrite IH by lia. apply bool_decide_ext. split.
      * intros [->|?]; right; simpl; lia.
      * intros [?|?]; [done|]. right. lia.
Qed.

(** Writing the rows [rs] from entry [i] on touches no other entry. *)
Lemma store_rows_lookup_ge rs :
  ∀ i (out_array : list (sensors_sample_t c_float)) j,
    (i + length rs ≤ j)%nat → store_rows rs i out_array !! j = out_array !! j.
Proof.
  induction rs as [|r rest IH]; intros i out_array j Hj; simpl; [done|].
  simpl in Hj. rewrite IH by lia. apply list_lookup_alter_ne. lia.
Qed.

Lemma store_rows_lookup_lt rs :
  ∀ i (out_array : list (sensors_sample_t c_float)) j,
    (j < i)%nat → store_rows rs i out_array !! j = out_array !! j.
Proof.
  induction rs as [|r rest IH]; intros i out_array j Hj; simpl; [done|].
  rewrite IH by lia. apply list_lookup_alter_ne. lia.
Qed.

(** Entry [i + k] receives the [k]-th row. *)
Lemma store_rows_lookup rs :
  ∀ i (out_array : list (sensors_sample_t c_float)) k r old,
    rs !! k = Some r → out_array !! (i + k)%nat = Some old →
    store_rows rs i out_array !! (i + k)%nat = Some (sample_of_row r old).
Proof.
  induction rs as [|r0 rest IH]; intros i out_array k r old Hk Hold; [done|].
  destruct k as [|k]; simpl in *.
  - injection Hk as ->. rewrite Nat.add_0_r in *.
    rewrite store_rows_lookup_lt by lia.
    by rewrite list_lookup_alter_eq, Hold.
  - replace (i + S k)%nat with (S i + k)%nat in * by lia.
    apply IH; [done|]. rewrite list_lookup_alter_ne by lia. done.
Qed.

(** *** The role check of the write path *)

(** C5. On a handle whose role is not Producer, [sensors_db_store_data]
    fails (returns -1, the diagnostic "DB is read-only" on stderr) and
    writes nothing: no engine call is made and every file, hence the table
    SensorData, is as before. *)
Theorem store_refused_unless_producer self a b c d w :
  mode self ≠ SENSORS_DB_PRODUCER →
  sensors_db_store_data self a b c d w
  = (-1, set_trace (EvStderr ("DB is read-only" +:+ newline) :: w_trace w) w)
  ∧ w_files (sensors_db_store_data self a b c d w).2 = w_files w.
Proof.
  intros Hm. unfold sensors_db_store_data. by rewrite decide_True.
Qed.

(** *** Opening a store that does not exist as a Consumer *)

(** C6. When no file exists at the path, [sensors_db_open] in Consumer
    role returns NULL and leaves the files as they are (none is created);
    SQLite is not called at all, and the only thing written is the
    diagnostic "Database does not exist" (nothing when [calloc] failed
    first). *)
Theorem open_consumer_missing_file db_file limit w :
  w_files w !! db_file = None →
  let r := sensors_db_open db_file SENSORS_DB_CONSUMER limit w in
  r.1 = None
  ∧ w_files r.2 = w_files w
  ∧ w_faults r.2 = w_faults w
  ∧ w_trace r.2 = if w_calloc_fails w then w_trace w
                  else EvStderr ("Database does not exist: " +:+ db_file +:+ newline)
                       :: w_trace w.
Proof.
  intros Hmiss r. subst r. unfold sensors_db_open, calloc, access. run.
  destruct (w_calloc_fails w); simpl; [done|].
  rewrite Hmiss.
  destruct (decide (is_Some (@None (option (table c_double))))) as [[? ?]|_]; [done|].
  by rewrite decide_True.
Qed.

(** *** What [sensors_db_store_data] reports *)

(** The faults that the first two engine calls of a store or of a
    [read_latest] meet: those of the compilation and of the step. *)
Lemma no_fault_at_0 w : no_fault_at 0 w ↔ mjoin (head (w_faults w)) = None.
Proof. unfold no_fault_at. by rewrite head_lookup. Qed.

Lemma no_fault_at_1 w : no_fault_at 1 w ↔ mjoin (head (tail (w_faults w))) = None.
Proof. unfold no_fault_at. by rewrite head_lookup, lookup_tail. Qed.

(** A statement compiles exactly when the connection is open, its file
    holds the table and the call meets no fault. *)
Lemma prepare_ok_iff dbc s w :
  (sqlite3_prepare_v2 dbc s w).1.1 = SQLITE_OK
  ↔ ∃ c t, dbc = Some c ∧ table_of c w = Some t ∧ no_fault_at 0 w.
Proof.
  split.
  - intros Hrc.
    destruct (prepare_cases dbc s w) as [(rc & Hne & Heq)|(c & t & -> & Ht & Hf & _)].
    + rewrite Heq in Hrc. done.
    + exists c, t. split_and!; [done|done|by apply no_fault_at_0].
  - intros (c & t & -> & Ht & Hf). apply no_fault_at_0 in Hf.
    by rewrite (prepare_ok c s w t).
Qed.

(** The step of the INSERT statement on a writable connection, below the
    largest rowid, without a fault: the row is inserted. *)
Lemma step_insert_ok st w t :
  st_sql st = INSERT_SQL → table_of (st_conn st) w = Some t →
  conn_readonly (st_conn st) = false → tbl_seq t < MAX_ROWID →
  mjoin (head (w_faults w)) = None →
  sqlite3_step (Some st) w
  = ((SQLITE_DONE, Some (stepped st (st_cursor st) None SQLITE_DONE)),
     set_files (<[conn_file (st_conn st) :=
                    Some (insert_row (w_now w) (st_params st) t)]> (w_files w))
       (after (EvStep SQLITE_DONE) w)).
Proof.
  intros Hsql Ht Hro Hseq Hf. unfold sqlite3_step. run. rewrite next_fault_eq, Hf.
  unfold step_sql. rewrite Hsql.
  change (table_of (st_conn st) (set_faults (tail (w_faults w)) w))
    with (table_of (st_conn st) w).
  rewrite Ht, Hro. by rewrite decide_False by lia.
Qed.

(** What [sensors_db_store_data] returns, from the handle and the
    environment: 0 when the handle is a Producer's, the statement
    compiles and the step inserts the row; -1 otherwise, with the
    reason. *)
Lemma store_env self a b c d w :
  let r := sensors_db_store_data self a b c d w in
  (r.1 = 0
   ∧ mode self = SENSORS_DB_PRODUCER
   ∧ ∃ conn t, db self = Some conn ∧ table_of conn w = Some t
       ∧ conn_readonly conn = false ∧ tbl_seq t < MAX_ROWID
       ∧ no_fault_at 0 w ∧ no_fault_at 1 w)
  ∨ (r.1 = -1
     ∧ (mode self ≠ SENSORS_DB_PRODUCER
        ∨ (sqlite3_prepare_v2 (db self) INSERT_SQL w).1.1 ≠ SQLITE_OK
        ∨ ∃ conn t, db self = Some conn ∧ table_of conn w = Some t ∧ no_fault_at 0 w
            ∧ (¬ no_fault_at 1 w ∨ conn_readonly conn = true
               ∨ MAX_ROWID <= tbl_seq t))).
Proof.
  intros r. subst r.
  destruct (decide (mode self ≠ SENSORS_DB_PRODUCER)) as [Hm|Hm].
  { right. split; [|by left]. unfold sensors_db_store_data. by rewrite decide_True. }
  apply dec_stable in Hm.
  destruct (prepare_cases (db self) INSERT_SQL w)
    as [(rc & Hrc & Hp)|(conn & t & Hdb & Ht & Hf & _)].
  { right. split; [|right; left; by rewrite Hp].
    unfold sensors_db_store_data.
    rewrite decide_False by (by rewrite Hm; intros []). run. rewrite Hp.
    by rewrite decide_True. }
  rewrite (store_producer_eq _ _ _ _ _ _ conn t) by done. cbv zeta.
  set (w1 := set_trace _ _).
  assert (Hf1 : mjoin (head (w_faults w1)) = mjoin (head (tail (w_faults w)))) by done.
  assert (H0 : no_fault_at 0 w) by (by apply no_fault_at_0).
  destruct (step_insert_cases (insert_stmt conn a b c d) w1 eq_refl)
    as [(rc & Hrc & Hrow & Hdone & Hs)|(t' & Ht' & Hro & Hseq & Hf' & Hs)].
  - right. split.
    { rewrite Hs. unfold sqlite3_finalize. run. simpl.
      destruct (decide (rc = SQLITE_ROW ∨ rc = SQLITE_DONE)) as [[?|?]|_]; [done..|].
      by rewrite decide_True. }
    right. right. exists conn, t. split_and!; [done..|].
    rewrite no_fault_at_1.
    destruct (mjoin (head (tail (w_faults w)))) as [e|] eqn:He; [by left|].
    destruct (conn_readonly conn) eqn:Hro; [by right; left|].
    destruct (decide (MAX_ROWID <= tbl_seq t)) as [?|Hseq]; [by right; right|].
    rewrite (step_insert_ok _ w1 t) in Hs by (done || lia).
    by injection Hs as <-.
  - left. change (table_of conn w = Some t') in Ht'.
    rewrite Ht in Ht'. injection Ht' as <-. split.
    { rewrite Hs. unfold sqlite3_finalize. run. simpl.
      case_decide; [|done]. by destruct (sqlite3_exec _ _ _). }
    split; [done|]. exists conn, t. split_and!; try done.
    rewrite no_fault_at_1, <-Hf1. done.
Qed.

Lemma store_success_env self a b c d w :
  (sensors_db_store_data self a b c d w).1 = 0
  ↔ mode self = SENSORS_DB_PRODUCER
    ∧ ∃ conn t, db self = Some conn ∧ table_of conn w = Some t
        ∧ conn_readonly conn = false ∧ tbl_seq t < MAX_ROWID
        ∧ no_fault_at 0 w ∧ no_fault_at 1 w.
Proof.
  destruct (store_env self a b c d w) as [(Hr & Hm & Henv)|(Hr & Hwhy)].
  { split; [by intros _|by intros _]. }
  rewrite Hr. split; [done|].
  intros (Hm & conn & t & Hdb & Ht & Hro & Hseq & H0 & H1).
  destruct Hwhy as [?|[Hp|(conn' & t' & Hdb' & Ht' & _ & Hwhy)]]; [done| |].
  - destruct Hp. apply prepare_ok_iff. by exists conn, t.
  - rewrite Hdb in Hdb'. injection Hdb' as <-. rewrite Ht in Ht'. injection Ht' as <-.
    destruct Hwhy as [?|[?|?]]; [done|congruence|lia].
Qed.

(** The table after a store that returned 0: the new row is its last, and
    the trim has only removed rows from the front. *)
Lemma store_success_table self a b c d w conn t :
  db self = Some conn → table_of conn w = Some t → wf_table t →
  (sensors_db_store_data self a b c d w).1 = 0 →
  let new := new_row (w_now w) (bound_params a b c d) t in
  ∃ t', table_of conn (sensors_db_store_data self a b c d w).2 = Some t'
    ∧ wf_table t'
    ∧ tbl_seq t' = tbl_seq t + 1
    ∧ last (tbl_rows t') = Some new
    ∧ tbl_rows t' `suffix_of` tbl_rows t ++ [new].
Proof.
  intros Hdb Ht Hwf Hr new.
  pose proof (insert_row_wf (w_now w) (bound_params a b c d) t Hwf) as Hwf1.
  destruct (store_cases self a b c d w)
    as [(_ & Hr' & _)
       |[(_ & rc & _ & Hr' & _)
        |[(_ & rc & _ & Hr' & _)
         |(Hm & conn' & t0 & Hdb' & Ht' & _ &
           [(_ & Hfiles & _)|(Hl & rc & _ & [[_ Hfiles]|[_ Hfiles]])])]]];
    try (rewrite Hr' in Hr; done).
  all: rewrite Hdb in Hdb'; injection Hdb' as <-; rewrite Ht in Ht'; injection Ht' as <-.
  1-2: eexists; split; [by apply (table_of_files _ w)|];
       split_and!; try done; [apply last_snoc].
  eexists. split; [by apply (table_of_files _ w)|].
  destruct Hwf1 as [Hs1 Hb1].
  split_and!; try done.
  - apply delete_not_in_latest_wf; [done|lia].
  - rewrite delete_not_in_latest_sorted by (done || lia). simpl.
    rewrite drop_app_le by (rewrite length_app; simpl; lia). apply last_snoc.
  - rewrite delete_not_in_latest_sorted by (done || lia). apply suffix_drop.
Qed.

(** C7.  [sensors_db_store_data] on a Producer handle compiles the
    insert statement, and once it compiled steps and finalizes it.  The
    call returns 0 exactly when the statement was compiled with SQLITE_OK
    and finalized with SQLITE_OK, which is exactly when the handle is a
    Producer's, the connection is open and writable, its file holds the
    table, the rowids are not exhausted and neither the compilation nor
    the step meets a fault;
    otherwise it returns -1, in particular whenever [sqlite3_finalize]
    returned an error, and then no file has changed.  When it returns 0
    the step returned SQLITE_DONE and the row is in the table: the
    counter has advanced, on a well-formed table the new row is the last
    one, and whatever the trim statement returns the call that ran it
    returns 0, an error of the trim leaving the table with the new row
    and nothing deleted.  [evs] are the calls made, most recent first. *)
Theorem store_success_iff_compiled_and_finalized self a b c d w :
  let r := sensors_db_store_data self a b c d w in
  ∃ evs, w_trace r.2 = evs ++ w_trace w
    ∧ (r.1 = 0 ∨ r.1 = -1)
    ∧ (r.1 = 0 ↔ EvPrepare INSERT_SQL SQLITE_OK ∈ evs ∧ EvFinalize SQLITE_OK ∈ evs)
    ∧ (∀ rc, EvFinalize rc ∈ evs → rc ≠ SQLITE_OK → r.1 = -1)
    ∧ (∀ s rc, EvExec s rc ∈ evs → r.1 = 0)
    ∧ (mode self = SENSORS_DB_PRODUCER → ∃ rc, EvPrepare INSERT_SQL rc ∈ evs)
    ∧ (EvPrepare INSERT_SQL SQLITE_OK ∈ evs →
       ∃ rcs rcf, EvStep rcs ∈ evs ∧ EvFinalize rcf ∈ evs)
    ∧ (r.1 = 0
       ↔ mode self = SENSORS_DB_PRODUCER
         ∧ ∃ conn t, db self = Some conn ∧ table_of conn w = Some t
             ∧ conn_readonly conn = false ∧ tbl_seq t < MAX_ROWID
             ∧ no_fault_at 0 w ∧ no_fault_at 1 w)
    ∧ (r.1 = 0 →
       EvStep SQLITE_DONE ∈ evs
       ∧ ∃ conn t t', db self = Some conn ∧ table_of conn w = Some t
           ∧ table_of conn r.2 = Some t'
           ∧ tbl_seq t' = tbl_seq t + 1
           ∧ (wf_table t →
              last (tbl_rows t') = Some (new_row (w_now w) (bound_params a b c d) t))
           ∧ (∀ s rc, EvExec s rc ∈ evs → rc ≠ SQLITE_OK →
                      t' = insert_row (w_now w) (bound_params a b c d) t))
    ∧ (r.1 = -1 → w_files r.2 = w_files w).
Proof.
  intros r. subst r.
  pose proof (store_success_env self a b c d w) as Henv.
  pose proof (λ conn t, store_success_table self a b c d w conn t) as Hrow.
  cbv zeta in Hrow.
  destruct (store_cases self a b c d w)
    as [(Hm & Hr & Hfiles & Htr)
       |[(Hm & rc & Hrc & Hr & Hfiles & Htr)
        |[(Hm & rc & Hrc & Hr & Hfiles & Htr)
         |(Hm & conn & t & Hdb & Ht & Hr &
           [(Hl & Hfiles & Htr)|(Hl & rc & Htr & Hfiles)])]]].
  - exists [EvStderr ("DB is read-only" +:+ newline)]. split; [by rewrite Htr|].
    rewrite Hr in *.
    split_and!; [by right|split; [done|]|..|done|done|done].
    + intros [H1 _]. absent H1.
    + intros rc H1. absent H1.
    + intros s rc H1. absent H1.
    + done.
    + intros H1. absent H1.
  - exists [EvPrepare INSERT_SQL rc]. split; [by rewrite Htr|].
    rewrite Hr in *.
    split_and!; [by right|split; [done|]|..|done|done|done].
    + intros [H1 _]. absent H1.
    + intros rc' H1. absent H1.
    + intros s rc' H1. absent H1.
    + intros _. exists rc. present.
    + intros H1. absent H1.
  - exists (EvFinalize rc :: EvStep rc
            :: bind_events a b c d ++ [EvPrepare INSERT_SQL SQLITE_OK]).
    split; [by rewrite Htr, !app_comm_cons, <-app_assoc|].
    rewrite Hr in *.
    split_and!; [by right|split; [done|]|..|done|done|done].
    + intros [_ H1]. absent H1.
    + done.
    + intros s rc' H1. absent H1.
    + intros _. exists SQLITE_OK. present.
    + intros _. exists rc, rc. split; present.
  - exists (EvFinalize SQLITE_OK :: EvStep SQLITE_DONE
            :: bind_events a b c d ++ [EvPrepare INSERT_SQL SQLITE_OK]).
    split; [by rewrite Htr, !app_comm_cons, <-app_assoc|].
    rewrite Hr in *.
    split_and!; [by left|split; [intros _|done]|..|done| |done].
    + split; present.
    + intros rc H1 Hrc. absent H1.
    + done.
    + intros _. exists SQLITE_OK. present.
    + intros _. exists SQLITE_DONE, SQLITE_OK. split; present.
    + intros _. split; [present|].
      exists conn, t, (insert_row (w_now w) (bound_params a b c d) t).
      split_and!; [done|done|by apply (table_of_files _ w)|done| |done].
      intros _. apply last_snoc.
  - exists (EvExec (TRIM_SQL (data_limit self)) rc :: EvFinalize SQLITE_OK
            :: EvStep SQLITE_DONE
            :: bind_events a b c d ++ [EvPrepare INSERT_SQL SQLITE_OK]).
    split; [by rewrite Htr, !app_comm_cons, <-app_assoc|].
    rewrite Hr in *.
    split_and!; [by left|split; [intros _|done]|..|done| |done].
    + split; present.
    + intros rc' H1 Hrc. absent H1.
    + done.
    + intros _. exists SQLITE_OK. present.
    + intros _. exists SQLITE_DONE, SQLITE_OK. split; present.
    + intros _. split; [present|].
      exists conn, t.
      destruct Hfiles as [[Hrc Hfiles]|[Hrc Hfiles]].
      * exists (insert_row (w_now w) (bound_params a b c d) t).
        split_and!; [done|done|by apply (table_of_files _ w)|done| |done].
        intros _. apply last_snoc.
      * exists (delete_not_in_latest (data_limit self)
                  (insert_row (w_now w) (bound_params a b c d) t)).
        split_and!; [done|done|by apply (table_of_files _ w)|done| |].
        -- intros Hwf.
           destruct (Hrow conn t Hdb Ht Hwf eq_refl) as (t' & Ht' & _ & _ & Hlast & _).
           rewrite (table_of_files _ w _ _ Hfiles) in Ht'. by injection Ht' as <-.
        -- intros s rc' H1 Hne. cbn [bind_events app] in H1.
           apply elem_of_cons in H1 as [H1|H1]; [congruence|absent H1].
Qed.

(** *** The timestamp of a sample *)

Lemma read_latest_quiet self (out : sensors_sample_t c_float) w conn t r rest :
  db self = Some conn → table_of conn w = Some t → quiet w →
  select_desc_limit 1 t = r :: rest →
  (sensors_db_read_latest self out w).1 = (SQLITE_OK, sample_of_row r out).
Proof.
  intros Hdb Ht Hq Hsel. unfold sensors_db_read_latest. run.
  rewrite Hdb, (prepare_ok conn SELECT_LATEST_SQL w t) by auto using quiet_head.
  rewrite decide_False by (by intros []).
  rewrite (step_select _ _ t (select_desc_limit 1 t));
    [|by left|exact (quiet_head _ (quiet_after _ w Hq))|done..].
  by rewrite Hsel.
Qed.

(** C8 (defect of the code).  When the stored timestamp text has 32
    characters or more (none of the first 32 a NUL), the sample that
    [sensors_db_read_latest] returns holds the first 32 characters of the
    text in its 32-byte array and no terminator: the field carries 32
    characters rather than at most 31, and a reader of the C string runs
    past the array.  The copy itself stores exactly 32 bytes. *)
Theorem read_latest_long_timestamp_unterminated
    self (out : sensors_sample_t c_float) w conn t r rest :
  db self = Some conn → table_of conn w = Some t → quiet w →
  select_desc_limit 1 t = r :: rest →
  length (sample_timestamp out) = sizeof_timestamp →
  (sizeof_timestamp ≤ String.length (row_timestamp r))%nat →
  NUL ∉ take sizeof_timestamp (list_ascii_of_string (row_timestamp r)) →
  let res := sensors_db_read_latest self out w in
  res.1.1 = SQLITE_OK
  ∧ sample_timestamp res.1.2
    = take sizeof_timestamp (list_ascii_of_string (row_timestamp r))
  ∧ length (sample_timestamp res.1.2) = sizeof_timestamp
  ∧ c_string (sample_timestamp res.1.2) = None.
Proof.
  intros Hdb Ht Hq Hsel Hout Hlen Hnul res. subst res.
  rewrite (read_latest_quiet self out w conn t r rest) by done.
  destruct (strncpy_bytes_long (row_timestamp r) sizeof_timestamp Hnul Hlen) as [Hb Hc].
  assert (Hts : sample_timestamp (sample_of_row r out)
                = strncpy_bytes (row_timestamp r) sizeof_timestamp).
  { cbn [sample_of_row sample_timestamp]. unfold strncpy.
    rewrite drop_ge by lia. apply app_nil_r. }
  cbn [fst snd]. rewrite Hts. split_and!; [done|done| |done].
  apply length_strncpy_bytes.
Qed.

(** *** The value a failing call returns *)

(** What [sensors_db_read_latest] returns, from the handle and the
    environment: 0 when the statement compiles and the step returns a
    row; -1 and [*out] as it was otherwise, with the reason. *)
Lemma read_latest_env self (out : sensors_sample_t c_float) w :
  let r := sensors_db_read_latest self out w in
  (r.1.1 = 0
   ∧ ∃ conn t, db self = Some conn ∧ table_of conn w = Some t
       ∧ no_fault_at 0 w ∧ no_fault_at 1 w ∧ tbl_rows t ≠ [])
  ∨ (r.1 = (-1, out)
     ∧ ((sqlite3_prepare_v2 (db self) SELECT_LATEST_SQL w).1.1 ≠ SQLITE_OK
        ∨ ∃ conn t, db self = Some conn ∧ table_of conn w = Some t ∧ no_fault_at 0 w
            ∧ (¬ no_fault_at 1 w ∨ tbl_rows t = []))).
Proof.
  intros r. subst r. unfold sensors_db_read_latest. run.
  destruct (prepare_cases (db self) SELECT_LATEST_SQL w)
    as [(rc & Hrc & Hp)|(conn & t & Hdb & Ht & Hf & Hp)]; rewrite Hp.
  { right. rewrite decide_True by done. split; [done|]. by left. }
  rewrite decide_False by (by intros []).
  assert (H0 : no_fault_at 0 w) by (by apply no_fault_at_0).
  set (w1 := after _ w). set (st := new_stmt conn SELECT_LATEST_SQL).
  assert (Hf1 : mjoin (head (w_faults w1)) = mjoin (head (tail (w_faults w)))) by done.
  destruct (mjoin (head (w_faults w1))) as [e|] eqn:He.
  { right. rewrite (step_fault _ _ e) by done.
    rewrite decide_True by apply fault_rc_not_row.
    split; [done|]. right. exists conn, t. split_and!; [done..|].
    left. rewrite no_fault_at_1, <-Hf1. done. }
  rewrite (step_select st w1 t (select_desc_limit 1 t)) by (done || by left).
  destruct (select_desc_limit 1 t) as [|r0 rest] eqn:Hsel; simpl.
  - right. split; [done|]. right. exists conn, t. split_and!; [done..|].
    right. by apply (select_desc_limit_nil 1).
  - left. split; [done|]. exists conn, t. split_and!; [done..| |].
    + rewrite no_fault_at_1, <-Hf1. done.
    + intros Hnil. unfold select_desc_limit in Hsel. rewrite Hnil in Hsel. done.
Qed.

(** C9 (as amended).  A failing call reports only that it failed.
    [sensors_db_store_data] returns -1 in each failure situation: on a
    handle that is not a Producer's (wrong role); when the statement is
    not compiled ([sqlite3_prepare_v2] does not return SQLITE_OK: no
    connection, no table in the file, or a fault met by the call); when
    the insert is not finalized with SQLITE_OK (the step meets a fault,
    the connection is read-only, or the rowids are exhausted); and it
    returns -1 in no other situation.  [sensors_db_read_latest] returns
    -1 and leaves [*out] as it was when the statement is not compiled,
    when the step meets an engine error, and when the table is empty,
    and in no other situation.  In every one of these situations the
    value returned is the same -1: it does not tell the kinds of error
    apart. *)
Theorem failures_return_minus_one :
  (∀ self a b c d w,
     let r := (sensors_db_store_data self a b c d w).1 in
     (mode self ≠ SENSORS_DB_PRODUCER → r = -1)
     ∧ ((sqlite3_prepare_v2 (db self) INSERT_SQL w).1.1 ≠ SQLITE_OK → r = -1)
     ∧ (db self = None → r = -1)
     ∧ (∀ conn, db self = Some conn → table_of conn w = None → r = -1)
     ∧ (¬ no_fault_at 0 w → r = -1)
     ∧ (¬ no_fault_at 1 w → r = -1)
     ∧ (∀ conn, db self = Some conn → conn_readonly conn = true → r = -1)
     ∧ (∀ conn t, db self = Some conn → table_of conn w = Some t →
                  MAX_ROWID <= tbl_seq t → r = -1)
     ∧ (r ≠ 0 → r = -1)
     ∧ (r = -1 →
        mode self ≠ SENSORS_DB_PRODUCER
        ∨ (sqlite3_prepare_v2 (db self) INSERT_SQL w).1.1 ≠ SQLITE_OK
        ∨ ∃ conn t, db self = Some conn ∧ table_of conn w = Some t ∧ no_fault_at 0 w
            ∧ (¬ no_fault_at 1 w ∨ conn_readonly conn = true
               ∨ MAX_ROWID <= tbl_seq t)))
  ∧ (∀ self (out : sensors_sample_t c_float) w,
       let r := (sensors_db_read_latest self out w).1 in
       ((sqlite3_prepare_v2 (db self) SELECT_LATEST_SQL w).1.1 ≠ SQLITE_OK →
        r = (-1, out))
       ∧ (db self = None → r = (-1, out))
       ∧ (∀ conn, db self = Some conn → table_of conn w = None → r = (-1, out))
       ∧ (¬ no_fault_at 0 w → r = (-1, out))
       ∧ (¬ no_fault_at 1 w → r = (-1, out))
       ∧ (∀ conn t, db self = Some conn → table_of conn w = Some t →
                    tbl_rows t = [] → r = (-1, out))
       ∧ (r.1 ≠ 0 → r = (-1, out))
       ∧ (r.1 = -1 →
          (sqlite3_prepare_v2 (db self) SELECT_LATEST_SQL w).1.1 ≠ SQLITE_OK
          ∨ ∃ conn t, db self = Some conn ∧ table_of conn w = Some t
              ∧ no_fault_at 0 w ∧ (¬ no_fault_at 1 w ∨ tbl_rows t = []))).
Proof.
  split.
  - intros self a b c d w r. subst r.
    assert (Hsucc := store_success_env self a b c d w).
    assert (Hnot : (sensors_db_store_data self a b c d w).1 ≠ 0 →
                   (sensors_db_store_data self a b c d w).1 = -1).
    { intros Hr. by destruct (store_returns_0_or_minus_1 self a b c d w). }
    assert (Hprep : (sqlite3_prepare_v2 (db self) INSERT_SQL w).1.1 ≠ SQLITE_OK →
                    (sensors_db_store_data self a b c d w).1 = -1).
    { intros Hp. apply Hnot. intros (_ & conn & t & Hdb & Ht & _ & _ & H0 & _)%Hsucc.
      apply Hp, prepare_ok_iff. by exists conn, t. }
    split_and!; [..|done|].
    + intros Hm. apply Hnot. by intros [? _]%Hsucc.
    + done.
    + intros Hdb. apply Hprep. intros (? & ? & ? & _)%prepare_ok_iff. congruence.
    + intros conn Hdb Ht. apply Hprep. intros (? & ? & ? & ? & _)%prepare_ok_iff.
      congruence.
    + intros H0. apply Hprep. by intros (? & ? & _ & _ & ?)%prepare_ok_iff.
    + intros H1. apply Hnot. by intros (_ & ? & ? & _ & _ & _ & _ & _ & ?)%Hsucc.
    + intros conn Hdb Hro. apply Hnot.
      intros (_ & conn' & ? & Hdb' & _ & Hro' & _)%Hsucc. congruence.
    + intros conn t Hdb Ht Hseq. apply Hnot.
      intros (_ & conn' & t' & Hdb' & Ht' & _ & Hseq' & _)%Hsucc.
      rewrite Hdb in Hdb'. injection Hdb' as <-. rewrite Ht in Ht'. injection Ht' as <-.
      lia.
    + intros Hr. destruct (store_env self a b c d w) as [(Hr' & _)|(_ & Hwhy)]; [|done].
      rewrite Hr in Hr'. done.
  - intros self out w r. subst r.
    destruct (read_latest_env self out w)
      as [(Hr & conn & t & Hdb & Ht & H0 & H1 & Hrows)|(Hr & Hwhy)].
    + split_and!.
      * intros Hp. destruct Hp. apply prepare_ok_iff. by exists conn, t.
      * congruence.
      * intros conn' Hdb' Ht'. congruence.
      * done.
      * done.
      * intros conn' t' Hdb' Ht' Hnil. congruence.
      * done.
      * rewrite Hr. done.
    + by split_and!.
Qed.

(** *** A step that fails in the middle of [sensors_db_read_n] *)

(** C2 (defect of the code).  When a step of [sensors_db_read_n] fails
    after [k] rows were copied (the statement compiled, [k] steps returned
    a row, the next one meets the fault [e]; the loop would have gone on),
    the call returns the count [k] with the [k] entries filled, exactly as
    if the query had ended there, although [sqlite3_finalize] returned the
    error: the partial result is reported as a success, not as an
    error. *)
Theorem read_n_step_fault_returns_count self (out_array : list (sensors_sample_t c_float))
    max_samples w conn t e fs (k : nat) :
  db self = Some conn → table_of conn w = Some t →
  w_faults w = None :: replicate k None ++ Some e :: fs →
  (k < length (copied (select_desc_limit max_samples t) max_samples 0))%nat →
  (k ≤ length out_array)%nat →
  ∃ w',
    sensors_db_read_n self out_array max_samples w
    = Returned (Z.of_nat k,
                store_rows (take k (select_desc_limit max_samples t)) 0 out_array) w'
    ∧ w_trace w' = EvFinalize (fault_rc e) :: EvStep (fault_rc e)
                   :: replicate k (EvStep SQLITE_ROW)
                   ++ EvBindInt 1 max_samples
                   :: EvPrepare SELECT_N_SQL SQLITE_OK :: w_trace w.
Proof.
  intros Hdb Ht Hf Hk Hcap. unfold sensors_db_read_n.
  rewrite Hdb, (prepare_ok conn SELECT_N_SQL w t) by (done || by rewrite Hf).
  rewrite decide_False by (by intros []).
  unfold sqlite3_bind_int. run. rewrite bind_value_ok by (simpl; lia).
  set (st := set_param 1 (VInt max_samples) (new_stmt conn SELECT_N_SQL)).
  set (w1 := set_trace _ _).
  destruct (read_n_loop_fault max_samples e fs k (select_desc_limit max_samples t)
              st out_array 0 w1 t) as (st' & w' & -> & Hrc & _ & _ & Htr);
    try done.
  - by right.
  - subst w1. simpl. by rewrite Hf.
  - unfold sqlite3_finalize. run. rewrite Hrc. eexists. split; [done|].
    simpl. by rewrite Htr.
Qed.

(** *** How many samples [sensors_db_read_n] returns *)

Lemma order_by_id_desc_head rs r rest :
  order_by_id_desc rs = r :: rest →
  r ∈ rs ∧ ∀ r', r' ∈ rs → row_id r' <= row_id r.
Proof.
  intros Ho.
  assert (Hs : StronglySorted id_desc (order_by_id_desc rs))
    by (apply StronglySorted_merge_sort; apply _).
  rewrite Ho in Hs. apply StronglySorted_cons in Hs as [Hall _].
  split.
  - rewrite <-(order_by_id_desc_perm rs), Ho. apply list_elem_of_here.
  - intros r'. rewrite <-(order_by_id_desc_perm rs), Ho.
    intros [->|Hin]%elem_of_cons; [lia|].
    rewrite Forall_forall in Hall. apply (Hall _ Hin).
Qed.

(** C3 (as amended).  For [max_samples >= 0], when the statement compiles
    and no engine error occurs, [sensors_db_read_n] returns
    [min(max_samples, total_rows)]; the entries filled are the first that
    many of the array, with the rows in descending id order; no entry from
    [max_samples] on is touched; and exactly that many steps returned a
    row, so never more than [max_samples]. *)
Theorem read_n_returns_min self out_array max_samples w conn t :
  db self = Some conn → table_of conn w = Some t → quiet w →
  0 <= max_samples →
  let total := Z.of_nat (length (tbl_rows t)) in
  Z.min max_samples total <= Z.of_nat (length out_array) →
  ∃ w' out_array',
    sensors_db_read_n self out_array max_samples w
    = Returned (Z.min max_samples total, out_array') w'
    ∧ out_array' = store_rows (select_desc_limit max_samples t) 0 out_array
    ∧ (∀ i, max_samples <= Z.of_nat i → out_array' !! i = out_array !! i)
    ∧ w_trace w'
      = EvFinalize SQLITE_OK
        :: (if decide (0 < max_samples <= total) then [] else [EvStep SQLITE_DONE])
        ++ replicate (Z.to_nat (Z.min max_samples total)) (EvStep SQLITE_ROW)
        ++ EvBindInt 1 max_samples :: EvPrepare SELECT_N_SQL SQLITE_OK :: w_trace w.
Proof.
  intros Hdb Ht Hq Hmax total Hcap.
  pose proof (length_select_desc_limit max_samples t) as Hlen.
  rewrite decide_False in Hlen by lia. fold total in Hlen.
  assert (Hcp : copied (select_desc_limit max_samples t) max_samples 0
                = select_desc_limit max_samples t)
    by (apply copied_within; lia).
  destruct (read_n_quiet self out_array max_samples w conn t Hdb Ht Hq)
    as (w' & Heq & _ & Htr).
  { rewrite Hcp. lia. }
  rewrite Hcp in Heq, Htr. rewrite Hlen in Heq.
  exists w', (store_rows (select_desc_limit max_samples t) 0 out_array).
  split_and!; [done|done|..].
  - intros i Hi. apply store_rows_lookup_ge. lia.
  - rewrite Htr. do 2 f_equal.
    + rewrite runs_dry_within by lia. rewrite Hlen.
      destruct (select_desc_limit max_samples t) as [|r rest] eqn:Hs.
      * rewrite bool_decide_eq_true_2 by (by left). simpl in Hlen.
        rewrite decide_False by lia. done.
      * simpl in Hlen. case_decide.
        -- rewrite bool_decide_eq_false_2; [done|]. intros [?|?]; [done|lia].
        -- rewrite bool_decide_eq_true_2; [done|]. right. lia.
    + by rewrite <-Hlen, Nat2Z.id.
Qed.

(** C10.  With a negative [max_samples] the value is bound to LIMIT as it
    is, for which SQLite returns every row; the loop copies the first row
    (the one with the greatest id) into entry 0 and only then finds
    [count >= max_samples]: on a table with rows it returns 1 with that
    one entry written, on an empty table it returns 0 with the array
    untouched. *)
Theorem read_n_negative_max self out_array max_samples w conn t :
  db self = Some conn → table_of conn w = Some t → quiet w →
  max_samples < 0 →
  select_desc_limit max_samples t = order_by_id_desc (tbl_rows t)
  ∧ (tbl_rows t ≠ [] → (1 ≤ length out_array)%nat →
     ∃ r w',
       sensors_db_read_n self out_array max_samples w
       = Returned (1, alter (sample_of_row r) 0%nat out_array) w'
       ∧ r ∈ tbl_rows t ∧ (∀ r', r' ∈ tbl_rows t → row_id r' <= row_id r)
       ∧ w_trace w' = [EvFinalize SQLITE_OK; EvStep SQLITE_ROW; EvBindInt 1 max_samples;
                       EvPrepare SELECT_N_SQL SQLITE_OK] ++ w_trace w)
  ∧ (tbl_rows t = [] →
     ∃ w',
       sensors_db_read_n self out_array max_samples w = Returned (0, out_array) w'
       ∧ w_trace w' = [EvFinalize SQLITE_OK; EvStep SQLITE_DONE; EvBindInt 1 max_samples;
                       EvPrepare SELECT_N_SQL SQLITE_OK] ++ w_trace w).
Proof.
  intros Hdb Ht Hq Hneg.
  assert (Hall : select_desc_limit max_samples t = order_by_id_desc (tbl_rows t))
    by (unfold select_desc_limit, sql_limit; by rewrite decide_True).
  split; [done|].
  pose proof (read_n_quiet self out_array max_samples w conn t Hdb Ht Hq) as Hrun.
  cbv zeta in Hrun. rewrite Hall in Hrun.
  split.
  - intros Hne Hcap.
    destruct (order_by_id_desc (tbl_rows t)) as [|r rest] eqn:Ho.
    { apply (f_equal length) in Ho. rewrite length_order_by_id_desc in Ho.
      by destruct (tbl_rows t). }
    rewrite copied_break in Hrun by lia.
    destruct Hrun as (w' & Heq & _ & Htr); [simpl; lia|].
    exists r, w'. destruct (order_by_id_desc_head _ _ _ Ho) as [Hin Hmax].
    split_and!; try done.
    rewrite Htr. simpl. by rewrite decide_True by lia.
  - intros Hnil. rewrite Hnil in Hrun.
    change (order_by_id_desc []) with (@nil (row c_double)) in Hrun.
    destruct Hrun as (w' & Heq & _ & Htr); [simpl; lia|].
    by exists w'.
Qed.

(** *** Retention *)


(** *** Reading back what was stored *)

Lemma to_int_id x : INT_MIN <= x <= INT_MAX → to_int x = x.
Proof.
  unfold to_int, INT_MIN, INT_MAX. intros Hx.
  rewrite Z.mod_small; lia.
Qed.

(** The ids of the entries that [store_rows] filled. *)
Lemma store_rows_ids rs :
  ∀ i (out_array : list (sensors_sample_t c_float)),
    (i + length rs ≤ length out_array)%nat →
    sample_id <$> take (length rs) (drop i (store_rows rs i out_array))
    = (fun r => to_int (row_id r)) <$> rs.
Proof.
  induction rs as [|r rest IH]; intros i out_array Hcap; [done|].
  cbn [length] in *.
  destruct (lookup_lt_is_Some_2 out_array i) as [old Hold]; [lia|].
  rewrite (drop_S _ (sample_of_row r old) i).
  - cbn [take fmap list_fmap]. f_equal. cbn [store_rows].
    apply IH. rewrite length_alter. lia.
  - cbn [store_rows]. rewrite store_rows_lookup_lt by lia.
    by rewrite list_lookup_alter_eq, Hold.
Qed.

(** The table after a sequence of successful stores without retention
    limit: one new row per call, in order, with the measurements of the
    call. *)
Lemma stores_ok_table self (ms : list (measurements c_float)) w w' :
  stores_ok self ms w w' →
  ∀ conn t,
    data_limit self <= 0 → db self = Some conn →
    table_of conn w = Some t → wf_table t →
    ∃ news,
      table_of conn w' = Some {| tbl_rows := tbl_rows t ++ news;
                                 tbl_seq := tbl_seq t + Z.of_nat (length ms) |}
      ∧ wf_table {| tbl_rows := tbl_rows t ++ news;
                    tbl_seq := tbl_seq t + Z.of_nat (length ms) |}
      ∧ length news = length ms
      ∧ row_reals <$> news = bound_reals <$> ms
      ∧ Forall (fun r => tbl_seq t < row_id r) news.
Proof.
  induction 1 as [w|a b c d ms w w1 w2 w3 [Henv _] Hstore Hrest IH];
    intros conn t Hl Hdb Ht Hwf.
  - exists []. rewrite app_nil_r, Z.add_0_r. by destruct t.
  - rewrite <-(table_of_same_files conn _ _ Henv) in Ht.
    set (t1 := insert_row (w_now w1) (bound_params a b c d) t).
    assert (Ht1 : table_of conn w2 = Some t1).
    { pose proof (store_cases self a b c d w1) as Hc. cbv zeta in Hc.
      rewrite Hstore in Hc. simpl in Hc.
      destruct Hc
        as [(_ & Hr & _)
           |[(_ & rc & _ & Hr & _)
            |[(_ & rc & _ & Hr & _)
             |(_ & conn' & t' & Hdb' & Ht' & _ &
               [(_ & Hfiles & _)|(Hl' & _)])]]]; try done; try lia.
      rewrite Hdb in Hdb'. injection Hdb' as <-. rewrite Ht in Ht'. injection Ht' as <-.
      by apply (table_of_files _ w1). }
    destruct (IH conn t1 Hl Hdb Ht1 (insert_row_wf _ _ _ Hwf))
      as (news & Htab & Hwf' & Hlen & Hreals & Hids).
    exists (new_row (w_now w1) (bound_params a b c d) t :: news).
    subst t1. unfold insert_row in *. simpl in *.
    rewrite <-app_assoc in Htab, Hwf'. simpl in Htab, Hwf'.
    replace (tbl_seq t + Z.of_nat (S (length ms)))
      with (tbl_seq t + 1 + Z.of_nat (length ms)) by lia.
    split_and!; try done.
    + by rewrite Hlen.
    + f_equal; [apply new_row_reals|exact Hreals].
    + constructor; [simpl; lia|].
      eapply Forall_impl; [exact Hids|]. simpl. intros. lia.
Qed.

Lemma StronglySorted_reverse_flip {A} (R : relation A) (l : list A) :
  StronglySorted R l → StronglySorted (flip R) (reverse l).
Proof.
  induction 1 as [|x l Hs IH Hx]; [constructor|].
  rewrite reverse_cons. apply StronglySorted_app. split_and!; [|done|repeat constructor].
  intros x1 x2 H1 ->%list_elem_of_singleton. rewrite elem_of_reverse in H1.
  rewrite Forall_forall in Hx. by apply Hx.
Qed.

(** C4.  After N successful [sensors_db_store_data] calls on a Producer
    handle with retention limit 0, [sensors_db_read_n] with
    [max_samples = N] returns N and fills the first N entries from the N
    rows these calls inserted ([news], in insertion order, each with the
    measurements of its call), last inserted first: strictly descending
    by id.  The [id] fields of the samples are these ids as long as they
    fit a C [int]. *)
Theorem read_n_returns_stores_reversed self (ms : list (measurements c_float))
    w w' w'' out_array conn t :
  mode self = SENSORS_DB_PRODUCER → data_limit self = 0 → db self = Some conn →
  table_of conn w = Some t → wf_table t →
  stores_ok self ms w w' → env_step w' w'' → quiet w'' →
  (length ms ≤ length out_array)%nat →
  ∃ news w3,
    sensors_db_read_n self out_array (Z.of_nat (length ms)) w''
    = Returned (Z.of_nat (length ms), store_rows (reverse news) 0 out_array) w3
    ∧ length news = length ms
    ∧ row_reals <$> news = bound_reals <$> ms
    ∧ StronglySorted (fun r1 r2 => row_id r2 < row_id r1) (reverse news)
    ∧ (0 <= tbl_seq t → tbl_seq t + Z.of_nat (length ms) <= INT_MAX →
       sample_id <$> take (length ms) (store_rows (reverse news) 0 out_array)
       = row_id <$> reverse news).
Proof.
  intros _ Hl Hdb Ht Hwf Hstores [Henv _] Hq Hcap.
  destruct (stores_ok_table self ms w w' Hstores conn t)
    as (news & Htab & [Hs Hb] & Hlen & Hreals & Hids); [lia|done..|].
  rewrite <-(table_of_same_files conn _ _ Henv) in Htab.
  set (T := {| tbl_rows := tbl_rows t ++ news;
               tbl_seq := tbl_seq t + Z.of_nat (length ms) |}) in *.
  assert (Hsel : select_desc_limit (Z.of_nat (length ms)) T = reverse news).
  { unfold select_desc_limit, sql_limit. rewrite decide_False by lia.
    rewrite order_by_id_desc_sorted by done. simpl. rewrite reverse_app, Nat2Z.id.
    apply take_app_length'. by rewrite length_reverse. }
  pose proof (read_n_quiet self out_array (Z.of_nat (length ms)) w'' conn T Hdb Htab Hq)
    as Hrun.
  cbv zeta in Hrun. rewrite Hsel in Hrun.
  rewrite copied_within in Hrun by (rewrite length_reverse; lia).
  rewrite length_reverse, Hlen in Hrun.
  destruct Hrun as (w3 & Heq & _); [done|].
  exists news, w3. split_and!; try done.
  - simpl in Hs. apply StronglySorted_app in Hs as (_ & _ & Hs).
    apply (StronglySorted_reverse_flip _ _ Hs).
  - intros Hseq Hmax.
    pose proof (store_rows_ids (reverse news) 0 out_array) as Hids'.
    rewrite length_reverse, Hlen, drop_0 in Hids'.
    rewrite Hids' by lia. apply list_fmap_ext.
    intros i r Hr. apply to_int_id.
    apply list_elem_of_lookup_2 in Hr. rewrite elem_of_reverse in Hr.
    rewrite Forall_forall in Hids, Hb. specialize (Hids _ Hr).
    specialize (Hb r). simpl in Hb. rewrite elem_of_app in Hb.
    specialize (Hb (or_intror Hr)). unfold INT_MIN. lia.
Qed.

(** *** [sensors_db_read_n] under every behaviour of the environment *)

(** A step of a query writes no file, keeps the statement a query, and
    leaves a current row exactly when it returns SQLITE_ROW. *)
Lemma step_query stmt w :
  query stmt →
  query (sqlite3_step stmt w).1.2
  ∧ w_files (sqlite3_step stmt w).2 = w_files w
  ∧ w_trace (sqlite3_step stmt w).2 = EvStep (sqlite3_step stmt w).1.1 :: w_trace w
  ∧ ((sqlite3_step stmt w).1.1 = SQLITE_ROW →
     ∃ st' r, (sqlite3_step stmt w).1.2 = Some st' ∧ st_row st' = Some r).
Proof.
  intros Hq. unfold sqlite3_step. run. rewrite next_fault_eq.
  destruct stmt as [st|]; [|by destruct (mjoin (head (w_faults w)))].
  destruct (mjoin (head (w_faults w))) as [e|].
  { simpl. split_and!; try done. intros He. by destruct e. }
  unfold step_sql. simpl in Hq.
  change (table_of (st_conn st) (set_faults (tail (w_faults w)) w))
    with (table_of (st_conn st) w).
  destruct (table_of (st_conn st) w) as [t|]; [|by simpl].
  assert (Hcur : ∀ rs (w0 : world c_double),
            let r := (step_cursor st rs, w0) in
            query (Some r.1.2) ∧ (r.1.1 = SQLITE_ROW → ∃ r0, st_row r.1.2 = Some r0)).
  { intros [|r0 rest] w0; simpl; split; try done. by exists r0. }
  destruct Hq as [Hq|Hq]; rewrite Hq.
  all: destruct (st_cursor st) as [rs|]; [|destruct (result_set st t) as [rs|]].
  all: try (destruct (Hcur rs (set_faults (tail (w_faults w)) w)) as [H1 H2];
            destruct (step_cursor st rs) as [rc st'] eqn:Hs; simpl in *;
            split_and!; try done; intros Hrow; destruct (H2 Hrow) as [r0 Hr0];
            by exists st', r0).
  all: simpl; split_and!; try done.
  all: unfold is_select; auto.
Qed.

(** What the loop does for every schedule of faults: it either stores
    outside an array shorter than [max(1, max_samples)], or returns with
    the count within the array and within [max(1, max_samples)], one entry
    filled per step that returned a row, every other entry and every file
    untouched. *)
Lemma read_n_loop_safe stmt (out_array : list (sensors_sample_t c_float)) max_samples count w :
  query stmt → 0 <= count → (Z.to_nat count ≤ length out_array)%nat →
  count < Z.max 1 max_samples →
  match read_n_loop stmt out_array max_samples count w with
  | Undefined => (length out_array < Z.to_nat (Z.max 1 max_samples))%nat
  | Returned (stmt', out_array', count') w' =>
      count <= count' <= Z.max 1 max_samples
      ∧ (Z.to_nat count' ≤ length out_array)%nat
      ∧ length out_array' = length out_array
      ∧ (∀ i, (i < Z.to_nat count)%nat ∨ (Z.to_nat count' ≤ i)%nat →
              out_array' !! i = out_array !! i)
      ∧ w_files w' = w_files w
      ∧ ∃ last, (last = [] ∨ ∃ rc, rc ≠ SQLITE_ROW ∧ last = [EvStep rc])
                ∧ w_trace w' = last ++ replicate (Z.to_nat (count' - count)) (EvStep SQLITE_ROW)
                                    ++ w_trace w
  end.
Proof.
  funelim (read_n_loop stmt out_array max_samples count w);
    intros Hq Hc Hlen Hlt;
    destruct (step_query stmt w Hq) as (Hq' & Hfiles & Htr & Hrow');
    rewrite Hstep in Hq', Hfiles, Htr, Hrow'; simpl in Hq', Hfiles, Htr, Hrow'.
  - split_and!; try done; try lia.
    exists [EvStep rc]. split; [right; by exists rc|].
    by rewrite Z.sub_diag.
  - apply lookup_lt_Some in Heq as Hin.
    destruct (decide (count + 1 >= max_samples)) as [Hge|Hnge].
    + split_and!; try lia.
      * by rewrite length_insert.
      * intros i Hi. apply list_lookup_insert_ne. lia.
      * done.
      * exists []. split; [by left|].
        replace (count + 1 - count) with 1 by lia. by rewrite Htr, Hrow.
    + specialize (H Hnge Hq'). rewrite length_insert in H.
      specialize (H ltac:(lia) ltac:(lia) ltac:(lia)).
      destruct (read_n_loop stmt' _ max_samples (count + 1) w')
        as [[[stmt2 out2] count2] w2|]; [|done].
      destruct H as (Hcnt & Hin2 & Hlen2 & Hsame & Hfiles2 & last & Hlast & Htr2).
      split_and!; try lia.
      * intros i Hi. rewrite Hsame by lia. apply list_lookup_insert_ne. lia.
      * congruence.
      * exists last. split; [done|]. rewrite Htr2, Htr, Hrow.
        replace (Z.to_nat (count2 - count)) with (S (Z.to_nat (count2 - (count + 1)))) by lia.
        f_equal. simpl. by rewrite app_comm_cons, replicate_cons_app, <-app_assoc.
  - apply lookup_ge_None in Heq. lia.
Qed.

(** X1.  [sensors_db_read_n] for every schedule of faults.  It stores
    outside the caller's array only if the array has fewer than
    [max(1, max_samples)] entries.  Otherwise it returns: -1 with the array
    untouched when the statement did not compile; else a count between 0
    and [max(1, max_samples)], within the array, with the array as long as
    before and untouched from entry [count] on.  It made one step per
    entry filled, at most one more step that returned no row, and it
    finalized the statement it compiled. *)
Theorem read_n_safe self out_array max_samples w :
  match sensors_db_read_n self out_array max_samples w with
  | Undefined => (length out_array < Z.to_nat (Z.max 1 max_samples))%nat
  | Returned (count, out_array') w' =>
      length out_array' = length out_array
      ∧ ((count = -1 ∧ out_array' = out_array
          ∧ ∃ rc, rc ≠ SQLITE_OK ∧ w_trace w' = EvPrepare SELECT_N_SQL rc :: w_trace w)
         ∨ (0 <= count <= Z.max 1 max_samples
            ∧ (Z.to_nat count ≤ length out_array)%nat
            ∧ (∀ i, (Z.to_nat count ≤ i)%nat → out_array' !! i = out_array !! i)
            ∧ ∃ rcf last,
                (last = [] ∨ ∃ rc, rc ≠ SQLITE_ROW ∧ last = [EvStep rc])
                ∧ w_trace w' = EvFinalize rcf :: last
                                 ++ replicate (Z.to_nat count) (EvStep SQLITE_ROW)
                                 ++ EvBindInt 1 max_samples
                                 :: EvPrepare SELECT_N_SQL SQLITE_OK :: w_trace w))
  end.
Proof.
  unfold sensors_db_read_n.
  destruct (prepare_cases (db self) SELECT_N_SQL w)
    as [(rc & Hrc & ->)|(conn & t & Hdb & Ht & Hf & ->)].
  { rewrite decide_True by done. split; [done|]. left. split_and!; try done.
    by exists rc. }
  rewrite decide_False by (by intros []).
  unfold sqlite3_bind_int. run. rewrite bind_value_ok by (simpl; lia).
  set (st := set_param 1 (VInt max_samples) (new_stmt conn SELECT_N_SQL)).
  set (w1 := set_trace _ _).
  assert (Hloop := read_n_loop_safe (Some st) out_array max_samples 0 w1
                     (or_intror eq_refl) ltac:(lia) ltac:(simpl; lia) ltac:(lia)).
  destruct (read_n_loop (Some st) out_array max_samples 0 w1)
    as [[[stmt' out'] count'] w'|].
  - destruct Hloop as (Hcnt & Hin & Hlen & Hsame & _ & last & Hlast & Htr).
    unfold sqlite3_finalize. run. split; [done|]. right. split_and!; try done; try lia.
    + intros i Hi. apply Hsame. by right.
    + eexists _, last. split; [done|]. simpl. rewrite Htr, Z.sub_0_r. done.
  - exact Hloop.
Qed.

(** *** More on [sensors_db_store_data] *)

(** X2.  [sensors_db_store_data] is all or nothing on the store: it
    returns -1 and has written no file, or it returns 0 on a Producer
    handle and the only file touched is the handle's, whose AUTOINCREMENT
    counter has advanced by one. *)
Theorem store_all_or_nothing self a b c d w :
  let r := sensors_db_store_data self a b c d w in
  (r.1 = -1 ∧ w_files r.2 = w_files w)
  ∨ (r.1 = 0 ∧ mode self = SENSORS_DB_PRODUCER
     ∧ ∃ conn t t',
         db self = Some conn ∧ table_of conn w = Some t
         ∧ table_of conn r.2 = Some t' ∧ tbl_seq t' = tbl_seq t + 1
         ∧ ∀ p, p ≠ conn_file conn → w_files r.2 !! p = w_files w !! p).
Proof.
  intros r. subst r.
  destruct (store_cases self a b c d w)
    as [(_ & Hr & Hfiles & _)
       |[(_ & rc & _ & Hr & Hfiles & _)
        |[(_ & rc & _ & Hr & Hfiles & _)
         |(Hm & conn & t & Hdb & Ht & Hr &
           [(_ & Hfiles & _)|(_ & rc & _ & [[_ Hfiles]|[_ Hfiles]])])]]];
    [by left..| | |].
  all: right; split_and!; [done..|]; eexists conn, t, _.
  all: split_and!; [done|done|by apply (table_of_files _ w)|done|].
  all: intros p Hp; by rewrite Hfiles, lookup_insert_ne.
Qed.


(** *** Sequences of stores *)



(** X4.  After N successful stores on a well-formed table, whatever the
    retention limit and whatever the trims did, the table is well-formed
    and its AUTOINCREMENT counter has advanced by exactly N: every row is
    an old row or has an id above the old counter, so an id is never handed
    out twice, not even after its row was deleted. *)
Theorem stores_never_reuse_ids self (ms : list (measurements c_float)) w w' :
  stores_ok self ms w w' →
  ∀ conn t,
    db self = Some conn → table_of conn w = Some t → wf_table t →
    ∃ T, table_of conn w' = Some T
      ∧ wf_table T
      ∧ tbl_seq T = tbl_seq t + Z.of_nat (length ms)
      ∧ ∀ r, r ∈ tbl_rows T → r ∈ tbl_rows t ∨ tbl_seq t < row_id r.
Proof.
  induction 1 as [w|a b c d ms w w1 w2 w3 [Henv _] Hstore Hrest IH];
    intros conn t Hdb Ht Hwf.
  - exists t. split_and!; [done|done|symmetry; apply Z.add_0_r|auto].
  - rewrite <-(table_of_same_files conn _ _ Henv) in Ht.
    destruct (store_success_table self a b c d w1 conn t Hdb Ht Hwf)
      as (t1 & Ht1 & Hwf1 & Hseq1 & _ & Hsuf); [by rewrite Hstore|].
    rewrite Hstore in Ht1. simpl in Ht1.
    destruct (IH conn t1 Hdb Ht1 Hwf1) as (T & HT & HwfT & HseqT & Hrows).
    exists T. split_and!; [done|done|cbn [length]; lia|].
    intros r Hr. destruct (Hrows r Hr) as [Hin|Hgt]; [|right; lia].
    destruct Hsuf as [k Hk].
    assert (Hin' : r ∈ k ++ tbl_rows t1) by (apply elem_of_app; by right).
    rewrite <-Hk in Hin'. clear Hin. rename Hin' into Hin.
    apply elem_of_app in Hin as [Hin|Hin]; [by left|].
    apply list_elem_of_singleton in Hin as ->. right. simpl. lia.
Qed.


(** *** [sensors_db_open], case by case *)

Lemma open_v2_cases filename flags w :
  (∃ rc, rc ≠ SQLITE_OK ∧
         sqlite3_open_v2 filename flags w = ((rc, None), after (EvOpen filename flags rc) w))
  ∨ ((is_Some (w_files w !! filename)
      ∨ Z.testbit flags 2 = true ∧ dirname filename ∈ w_dirs w)
     ∧ sqlite3_open_v2 filename flags w
       = ((SQLITE_OK, Some {| conn_file := filename;
                              conn_readonly := negb (Z.testbit flags 1) |}),
          set_files (if Z.testbit flags 2 then files_opened filename w else w_files w)
            (after (EvOpen filename flags SQLITE_OK) w))).
Proof.
  unfold sqlite3_open_v2, files_opened. run. rewrite next_fault_eq.
  destruct (mjoin (head (w_faults w))) as [e|].
  { left. exists (fault_rc e). split; [apply fault_rc_not_ok|done]. }
  change (w_files (set_faults (tail (w_faults w)) w)) with (w_files w).
  change (w_dirs (set_faults (tail (w_faults w)) w)) with (w_dirs w).
  destruct (w_files w !! filename) as [content|] eqn:Hl.
  - right. split; [by left|]. by destruct (Z.testbit flags 2).
  - destruct (Z.testbit flags 2) eqn:Hc; simpl.
    + case_bool_decide as Hd.
      * right. split; [by right|done].
      * left. by exists SQLITE_CANTOPEN.
    + left. by exists SQLITE_CANTOPEN.
Qed.

Lemma exec_create_cases c w :
  (∃ rc, rc ≠ SQLITE_OK ∧
         sqlite3_exec (Some c) CREATE_TABLE_SQL w
         = (rc, after (EvExec CREATE_TABLE_SQL rc) w))
  ∨ (is_Some (w_files w !! conn_file c)
     ∧ sqlite3_exec (Some c) CREATE_TABLE_SQL w
       = (SQLITE_OK,
          set_files (files_with_table (conn_file c) w)
            (after (EvExec CREATE_TABLE_SQL SQLITE_OK) w))).
Proof.
  unfold sqlite3_exec, files_with_table. run. rewrite next_fault_eq.
  destruct (mjoin (head (w_faults w))) as [e|].
  { left. exists (fault_rc e). split; [apply fault_rc_not_ok|done]. }
  unfold exec_sql.
  change (w_files (set_faults (tail (w_faults w)) w)) with (w_files w).
  destruct (w_files w !! conn_file c) as [[t|]|] eqn:Hl.
  - right. split; [done|]. by destruct w.
  - destruct (conn_readonly c); [left; by exists SQLITE_READONLY|].
    right. by split.
  - left. by exists SQLITE_IOERR.
Qed.

(** The runs of [sensors_db_open]. *)
Lemma open_cases db_file md limit w :
  let r := sensors_db_open db_file md limit w in
  (w_calloc_fails w = true ∧ r = (None, w))
  ∨ (md = SENSORS_DB_CONSUMER ∧ w_files w !! db_file = None ∧ r.1 = None
     ∧ w_files r.2 = w_files w
     ∧ w_trace r.2 = EvStderr ("Database does not exist: " +:+ db_file +:+ newline)
                     :: w_trace w)
  ∨ (∃ rc, rc ≠ SQLITE_OK ∧ r.1 = None ∧ w_files r.2 = w_files w
       ∧ w_trace r.2 = EvStderr ("Cannot open DB: " +:+ sqlite3_errmsg rc +:+ newline)
                       :: EvOpen db_file (open_flags md) rc :: w_trace w)
  ∨ (md = SENSORS_DB_CONSUMER ∧ is_Some (w_files w !! db_file)
     ∧ r.1 = Some (opened_handle db_file md limit) ∧ w_files r.2 = w_files w
     ∧ w_trace r.2 = EvOpen db_file (open_flags md) SQLITE_OK :: w_trace w)
  ∨ (md = SENSORS_DB_PRODUCER
     ∧ ∃ rc, rc ≠ SQLITE_OK ∧ r.1 = None ∧ w_files r.2 = files_opened db_file w
       ∧ w_trace r.2 = EvClose
                       :: EvStderr ("SQL error: " +:+ sqlite3_errmsg rc +:+ newline)
                       :: EvExec CREATE_TABLE_SQL rc
                       :: EvOpen db_file (open_flags md) SQLITE_OK :: w_trace w)
  ∨ (md = SENSORS_DB_PRODUCER
     ∧ r.1 = Some (opened_handle db_file md limit)
     ∧ w_files r.2 = files_with_table db_file w
     ∧ w_trace r.2 = EvExec CREATE_TABLE_SQL SQLITE_OK
                     :: EvOpen db_file (open_flags md) SQLITE_OK :: w_trace w).
Proof.
  intros r. subst r. unfold sensors_db_open, calloc. run.
  destruct (w_calloc_fails w) eqn:Hcal; simpl; [by left|]. right.
  destruct md; simpl.
  - (* Producer *)
    right.
    destruct (open_v2_cases db_file (Z.lor SQLITE_OPEN_READWRITE SQLITE_OPEN_CREATE) w)
      as [(rc & Hrc & ->)|(_ & ->)].
    { left. exists rc. by rewrite decide_True. }
    right. right. rewrite decide_False by (by intros []).
    change (Z.testbit (Z.lor SQLITE_OPEN_READWRITE SQLITE_OPEN_CREATE) 2) with true.
    change (Z.testbit (Z.lor SQLITE_OPEN_READWRITE SQLITE_OPEN_CREATE) 1) with true.
    cbn [negb set_db db data_limit mode].
    set (c := {| conn_file := db_file; conn_readonly := false |}).
    set (w1 := set_files _ _).
    destruct (exec_create_cases c w1) as [(rc & Hrc & ->)|(Hex & ->)].
    { left. split; [done|]. exists rc. by rewrite decide_True. }
    right. rewrite decide_False by (by intros []). split_and!; try done.
    unfold files_with_table, files_opened. subst w1 c. simpl.
    unfold files_opened.
    destruct (w_files w !! db_file) as [[t|]|] eqn:Hl; simpl.
    + by rewrite Hl.
    + by rewrite Hl.
    + by rewrite lookup_insert_eq, insert_insert_eq.
  - (* Consumer *)
    unfold access. cbn.
    destruct (w_files w !! db_file) as [content|] eqn:Hl.
    + destruct (decide (is_Some (Some content))) as [_|Hn]; [|by destruct Hn].
      rewrite decide_False by (by intros []).
      right.
      destruct (open_v2_cases db_file SQLITE_OPEN_READONLY w)
        as [(rc & Hrc & ->)|(_ & ->)].
      { left. exists rc. by rewrite decide_True. }
      right. left. rewrite decide_False by (by intros []). by split_and!.
    + destruct (decide (is_Some (@None (option (table c_double))))) as [[? ?]|_]; [done|].
      left. by rewrite decide_True.
Qed.

(** *** What [sensors_db_open] returns and what it leaves on disk *)


(** X7.  [sensors_db_open] never loses data: a table that a file holds
    before the call, at any path, is there unchanged after it, in either
    role and whether the call succeeds or fails. *)
Theorem open_keeps_existing_tables db_file md limit w p t :
  w_files w !! p = Some (Some t) →
  w_files (sensors_db_open db_file md limit w).2 !! p = Some (Some t).
Proof.
  intros Hp.
  assert (Ho : files_opened db_file w !! p = Some (Some t)).
  { unfold files_opened. destruct (w_files w !! db_file) eqn:Hl; [done|].
    rewrite lookup_insert_ne; [done|]. intros <-. congruence. }
  assert (Hw : files_with_table db_file w !! p = Some (Some t)).
  { unfold files_with_table. destruct (w_files w !! db_file) as [[t0|]|] eqn:Hl; [done|..];
      (rewrite lookup_insert_ne; [done|]; intros <-; congruence). }
  destruct (open_cases db_file md limit w)
    as [(_ & ->)|[(_ & _ & _ & -> & _)|[(rc & _ & _ & -> & _)
       |[(_ & _ & _ & -> & _)|[(_ & rc & _ & _ & -> & _)|(_ & _ & -> & _)]]]]]; done.
Qed.

(** X8.  In Consumer role [sensors_db_open] writes nothing, on every
    path and every outcome: the files are as before. *)
Theorem open_consumer_writes_nothing db_file limit w :
  w_files (sensors_db_open db_file SENSORS_DB_CONSUMER limit w).2 = w_files w.
Proof.
  destruct (open_cases db_file SENSORS_DB_CONSUMER limit w)
    as [(_ & ->)|[(_ & _ & _ & -> & _)|[(rc & _ & _ & -> & _)
       |[(_ & _ & _ & -> & _)|[(? & _)|(? & _)]]]]]; done.
Qed.




(** X10.  [sensors_db_open] leaks no connection: when the call opened a
    connection (a [sqlite3_open_v2] that returned SQLITE_OK is among the
    calls [evs] it made), it has called [sqlite3_close] exactly when it
    returns NULL; a handle that is returned keeps its connection open. *)
Theorem open_closes_connection_iff_it_fails db_file md limit w evs flags :
  let r := sensors_db_open db_file md limit w in
  w_trace r.2 = evs ++ w_trace w →
  EvOpen db_file flags SQLITE_OK ∈ evs →
  (EvClose ∈ evs ↔ r.1 = None).
Proof.
  intros r Hevs Hin. subst r.
  destruct (open_cases db_file md limit w)
    as [(_ & Hr)|[(_ & _ & Hr & _ & Htr)|[(rc & Hrc & Hr & _ & Htr)
       |[(_ & _ & Hr & _ & Htr)|[(_ & rc & _ & Hr & _ & Htr)|(_ & Hr & _ & Htr)]]]]].
  - rewrite Hr in Hevs. simpl in Hevs.
    apply (app_inv_tail _ [] evs) in Hevs. subst evs. by apply elem_of_nil in Hin.
  - rewrite Htr in Hevs. apply (app_inv_tail _ [_] evs) in Hevs. subst evs. absent Hin.
  - rewrite Htr in Hevs. apply (app_inv_tail _ [_; _] evs) in Hevs. subst evs. absent Hin.
  - rewrite Htr in Hevs. apply (app_inv_tail _ [_] evs) in Hevs. subst evs.
    rewrite Hr. split; [intros Hc; absent Hc|done].
  - rewrite Htr in Hevs. apply (app_inv_tail _ [_; _; _; _] evs) in Hevs. subst evs.
    split; [done|]. intros _. apply list_elem_of_here.
  - rewrite Htr in Hevs. apply (app_inv_tail _ [_; _] evs) in Hevs. subst evs.
    rewrite Hr. split; [intros Hc; absent Hc|done].
Qed.



Lemma open_calloc_fails db_file md limit w :
  w_calloc_fails w = true → sensors_db_open db_file md limit w = (None, w).
Proof. intros Hcal. unfold sensors_db_open, calloc. run. by rewrite Hcal. Qed.

(** X12.  A failed [sensors_db_open] is reported, and creates no table.
    Among the calls [evs] of one open there is a diagnostic on stderr
    exactly when the call returns NULL for a reason other than lack of
    memory.  A call that returns NULL leaves every file as it was, except
    that in Producer role the file itself may have been created, without
    the table. *)
Theorem open_failure_is_reported db_file md limit w evs :
  let r := sensors_db_open db_file md limit w in
  w_trace r.2 = evs ++ w_trace w →
  ((∃ msg, EvStderr msg ∈ evs) ↔ r.1 = None ∧ w_calloc_fails w = false)
  ∧ (r.1 = None →
     ∀ p, w_files r.2 !! p = w_files w !! p
          ∨ (p = db_file ∧ md = SENSORS_DB_PRODUCER
             ∧ w_files w !! p = None ∧ w_files r.2 !! p = Some None)).
Proof.
  intros r Hevs. subst r.
  destruct (w_calloc_fails w) eqn:Hcal.
  { rewrite open_calloc_fails in * by done. simpl in *.
    apply (app_inv_tail _ [] evs) in Hevs. subst evs.
    split; [split|]; [intros [? H]; by apply elem_of_nil in H|by intros [_ ?]|].
    intros _ p. by left. }
  destruct (open_cases db_file md limit w)
    as [(Hc & _)|[(_ & _ & Hr & Hfiles & Htr)|[(rc & Hrc & Hr & Hfiles & Htr)
       |[(_ & _ & Hr & _ & Htr)|[(Hm & rc & _ & Hr & Hfiles & Htr)|(_ & Hr & _ & Htr)]]]]];
    [congruence|..].
  all: rewrite Htr in Hevs.
  - apply (app_inv_tail _ [_] evs) in Hevs. subst evs.
    split; [split|]; [done|intros _; eexists; present|].
    intros _ p. left. by rewrite Hfiles.
  - apply (app_inv_tail _ [_; _] evs) in Hevs. subst evs.
    split; [split|]; [done|intros _; eexists; present|].
    intros _ p. left. by rewrite Hfiles.
  - apply (app_inv_tail _ [_] evs) in Hevs. subst evs. rewrite Hr.
    split; [split|]; [intros [? H]; absent H|by intros [? _]|done].
  - apply (app_inv_tail _ [_; _; _; _] evs) in Hevs. subst evs.
    split; [split|]; [done|intros _; eexists; present|].
    intros _ p. rewrite Hfiles. unfold files_opened.
    destruct (w_files w !! db_file) eqn:Hl; [by left|].
    destruct (decide (p = db_file)) as [->|Hne].
    + right. by rewrite lookup_insert_eq.
    + left. by rewrite lookup_insert_ne.
  - apply (app_inv_tail _ [_; _] evs) in Hevs. subst evs. rewrite Hr.
    split; [split|]; [intros [? H]; absent H|by intros [? _]|done].
Qed.

(** *** More on the read path *)

(** X13.  Reading and closing never write: [sensors_db_read_latest],
    [sensors_db_read_n] (whenever it returns) and [sensors_db_close] leave
    every file as it was, whatever the handle, the arguments and the
    faults met. *)
Theorem reads_and_close_write_nothing self handle out out_array max_samples w :
  w_files (sensors_db_read_latest self out w).2 = w_files w
  ∧ (∀ res w', sensors_db_read_n self out_array max_samples w = Returned res w' →
               w_files w' = w_files w)
  ∧ w_files (sensors_db_close handle w).2 = w_files w.
Proof.
  split_and!.
  - destruct (read_latest_cases self out w)
      as [(? & _ & _ & H & _)|[(? & ? & _ & _ & H & _)|(? & ? & ? & ? & _ & _ & _ & _ & H & _)]];
      exact H.
  - intros res w'. unfold sensors_db_read_n.
    destruct (prepare_cases (db self) SELECT_N_SQL w)
      as [(rc & Hrc & ->)|(conn & t & Hdb & Ht & Hf & ->)].
    { rewrite decide_True by done. by intros [= <- <-]. }
    rewrite decide_False by (by intros []).
    unfold sqlite3_bind_int. run. rewrite bind_value_ok by (simpl; lia).
    set (st := set_param 1 (VInt max_samples) (new_stmt conn SELECT_N_SQL)).
    set (w1 := set_trace _ _).
    assert (Hloop := read_n_loop_safe (Some st) out_array max_samples 0 w1
                       (or_intror eq_refl) ltac:(lia) ltac:(simpl; lia) ltac:(lia)).
    destruct (read_n_loop (Some st) out_array max_samples 0 w1)
      as [[[stmt' out'] count'] w2|]; [|done].
    destruct Hloop as (_ & _ & _ & _ & Hfiles & _).
    unfold sqlite3_finalize. run. by intros [= <- <-].
  - unfold sensors_db_close, sqlite3_close. run.
    destruct handle as [h|]; [|done]. by destruct (db h).
Qed.

(** On a table as SQLite keeps it, the latest-row query returns the row
    stored last, if any. *)
Lemma select_latest_wf t :
  wf_table t → select_desc_limit 1 t = option_list (last (tbl_rows t)).
Proof.
  intros [Hs _]. unfold select_desc_limit, sql_limit.
  rewrite decide_False by lia. rewrite order_by_id_desc_sorted by done.
  change (Z.to_nat 1) with 1%nat.
  destruct (tbl_rows t) as [|r rs _] using rev_ind; [done|].
  by rewrite reverse_app, last_snoc.
Qed.

(** X14.  [sensors_db_read_latest] returns the row stored last, or
    nothing.  On an open handle, for every schedule of faults, it either
    returns -1 and leaves [out] as it was, or returns 0 and [out] holds
    the last row of the table (the one with the greatest id); it returns
    -1 on an empty table, and 0 on a table with rows when the engine meets
    no fault. *)
Theorem read_latest_newest_or_nothing self out w conn t :
  db self = Some conn → table_of conn w = Some t → wf_table t →
  let r := sensors_db_read_latest self out w in
  (r.1 = (-1, out)
   ∨ ∃ r0, last (tbl_rows t) = Some r0 ∧ r.1 = (0, sample_of_row r0 out)
           ∧ ∀ r', r' ∈ tbl_rows t → row_id r' <= row_id r0)
  ∧ (tbl_rows t = [] → r.1 = (-1, out))
  ∧ (quiet w → tbl_rows t ≠ [] → r.1.1 = 0).
Proof.
  intros Hdb Ht Hwf r. subst r.
  pose proof (select_latest_wf t Hwf) as Hsel.
  assert (Hcases :
    (sensors_db_read_latest self out w).1 = (-1, out)
    ∨ ∃ r0, last (tbl_rows t) = Some r0
            ∧ (sensors_db_read_latest self out w).1 = (0, sample_of_row r0 out)
            ∧ ∀ r', r' ∈ tbl_rows t → row_id r' <= row_id r0).
  { destruct (read_latest_cases self out w)
      as [(? & _ & H & _)|[(? & ? & _ & H & _)
         |(conn' & t' & r0 & rest & Hdb' & Ht' & Hsel' & H & _)]]; [by left..|].
    rewrite Hdb in Hdb'. injection Hdb' as <-. rewrite Ht in Ht'. injection Ht' as <-.
    right. exists r0. rewrite Hsel in Hsel'.
    destruct (last (tbl_rows t)) as [r1|] eqn:Hlast; [|done].
    injection Hsel' as -> <-. split_and!; [done|done|].
    pose proof (select_latest_wf t Hwf) as Hsel'. rewrite Hlast in Hsel'.
    unfold select_desc_limit, sql_limit in Hsel'. rewrite decide_False in Hsel' by lia.
    destruct (order_by_id_desc (tbl_rows t)) as [|r2 rest] eqn:Ho; [done|].
    injection Hsel' as ->. by apply (order_by_id_desc_head _ _ _ Ho). }
  split_and!; [done|..].
  - intros Hnil. destruct Hcases as [H|(r0 & Hl & _)]; [done|]. by rewrite Hnil in Hl.
  - intros Hq Hne.
    destruct (last (tbl_rows t)) as [r1|] eqn:Hlast.
    + by rewrite (read_latest_quiet self out w conn t r1 [] Hdb Ht Hq Hsel).
    + apply last_None in Hlast. done.
Qed.



(** X16.  [sensors_db_read_n] returns the newest rows, newest first.  On
    a table of [n] rows, with [max_samples >= 0] and no fault, it returns
    [min(max_samples, n)], and for each [i] below that count entry [i] of
    the array receives the row stored [i] places before the last one. *)
Theorem read_n_newest_first self out_array max_samples w conn t :
  db self = Some conn → table_of conn w = Some t → wf_table t → quiet w →
  0 <= max_samples →
  let n := length (tbl_rows t) in
  let k := Nat.min (Z.to_nat max_samples) n in
  (k ≤ length out_array)%nat →
  ∃ w' out_array',
    sensors_db_read_n self out_array max_samples w = Returned (Z.of_nat k, out_array') w'
    ∧ length out_array' = length out_array
    ∧ (∀ i r old, (i < k)%nat → tbl_rows t !! (n - 1 - i)%nat = Some r →
                  out_array !! i = Some old →
                  out_array' !! i = Some (sample_of_row r old))
    ∧ (∀ i, (k ≤ i)%nat → out_array' !! i = out_array !! i).
Proof.
  intros Hdb Ht [Hs _] Hq Hmax n k Hcap.
  assert (Hsel : select_desc_limit max_samples t
                 = take (Z.to_nat max_samples) (reverse (tbl_rows t))).
  { unfold select_desc_limit, sql_limit. rewrite decide_False by lia.
    by rewrite order_by_id_desc_sorted. }
  assert (Hlen : length (select_desc_limit max_samples t) = k).
  { rewrite Hsel, length_take, length_reverse. done. }
  assert (Hcp : copied (select_desc_limit max_samples t) max_samples 0
                = select_desc_limit max_samples t)
    by (apply copied_within; lia).
  destruct (read_n_quiet self out_array max_samples w conn t Hdb Ht Hq)
    as (w' & Heq & _); [by rewrite Hcp, Hlen|].
  rewrite Hcp, Hlen in Heq.
  exists w', (store_rows (select_desc_limit max_samples t) 0 out_array).
  split_and!; [done|apply length_store_rows|..].
  - intros i r old Hi Hr Hold.
    apply (store_rows_lookup _ 0 out_array i r old); [|done].
    rewrite Hsel, lookup_take_lt by lia.
    rewrite reverse_lookup by lia. by replace (length (tbl_rows t) - S i)%nat with (n - 1 - i)%nat by lia.
  - intros i Hi. apply store_rows_lookup_ge. lia.
Qed.

(** X17.  [sensors_db_read_n] with [max_samples = 1] is
    [sensors_db_read_latest].  For every handle and every schedule of
    faults, a [read_n] into an array of one entry returns (it never
    stores outside the array), with count 1 exactly when [read_latest]
    returns 0 and with -1 or 0 when [read_latest] returns -1; in both
    cases the entry holds what [read_latest] leaves in [out], and the
    two calls have consumed the same engine faults and written no
    file. *)
Theorem read_n_one_is_read_latest self out w :
  let l := sensors_db_read_latest self out w in
  ∃ count w',
    sensors_db_read_n self [out] 1 w = Returned (count, [l.1.2]) w'
    ∧ ((count = 1 ∧ l.1.1 = 0) ∨ ((count = 0 ∨ count = -1) ∧ l.1 = (-1, out)))
    ∧ w_faults w' = w_faults l.2
    ∧ w_files w' = w_files l.2.
Proof.
  intros l. subst l. unfold sensors_db_read_n, sensors_db_read_latest. run.
  destruct (prepare_cases (db self) SELECT_N_SQL w)
    as [(rc & Hrc & Hn)|(conn & t & Hdb & Ht & Hf & Hn)].
  - destruct (prepare_cases (db self) SELECT_LATEST_SQL w)
      as [(rc' & Hrc' & Hl)|(conn & t & Hdb & Ht & Hf & _)].
    + rewrite Hn, Hl. rewrite !decide_True by done.
      eexists _, _. split; [done|]. simpl. split_and!; try done. right. by split; [right|].
    + rewrite Hdb, (prepare_ok conn _ w t) in Hn by done. by inversion Hn.
  - rewrite Hn. rewrite Hdb, (prepare_ok conn SELECT_LATEST_SQL w t) by done.
    rewrite !decide_False by (by intros []).
    unfold sqlite3_bind_int. run. rewrite bind_value_ok by (simpl; lia).
    rewrite read_n_loop_once.
    set (stn := set_param 1 (VInt 1) (new_stmt conn SELECT_N_SQL)).
    set (stl := new_stmt conn SELECT_LATEST_SQL).
    set (wn := set_trace _ _). set (wl := after _ w).
    assert (Hfn : mjoin (head (w_faults wn)) = mjoin (head (w_faults wl))) by done.
    destruct (mjoin (head (w_faults wl))) as [e|] eqn:Hf1.
    + rewrite (step_fault stn wn e), (step_fault stl wl e) by done.
      rewrite decide_False by apply fault_rc_not_row.
      rewrite decide_True by apply fault_rc_not_row.
      unfold sqlite3_finalize. run.
      eexists _, _. split; [done|]. simpl. split_and!; try done. right. by split; [left|].
    + rewrite (step_select stn wn t (select_desc_limit 1 t)) by (done || by right).
      rewrite (step_select stl wl t (select_desc_limit 1 t)) by (done || by left).
      destruct (select_desc_limit 1 t) as [|r0 rest]; simpl.
      * eexists _, _. split; [done|]. simpl. split_and!; try done. right. by split; [left|].
      * eexists _, _. split; [done|]. simpl. split_and!; try done. left. by split.
Qed.

(** *** Statements *)

(** X18.  No statement is leaked.  Among the engine calls [evs] of one
    [sensors_db_store_data] or one [sensors_db_read_latest], whatever
    faults are met, there is a [sqlite3_finalize] exactly when the
    statement compiled; and nothing follows the finalize but, in a store
    with a retention limit, the trim. *)
Theorem compiled_statements_are_finalized self a b c d out w :
  (∀ evs, w_trace (sensors_db_store_data self a b c d w).2 = evs ++ w_trace w →
     (EvPrepare INSERT_SQL SQLITE_OK ∈ evs ↔ ∃ rc, EvFinalize rc ∈ evs)
     ∧ ∀ rc, EvFinalize rc ∈ evs →
         head evs = Some (EvFinalize rc)
         ∨ ∃ rct, take 2 evs = [EvExec (TRIM_SQL (data_limit self)) rct; EvFinalize rc])
  ∧ (∀ evs, w_trace (sensors_db_read_latest self out w).2 = evs ++ w_trace w →
       (EvPrepare SELECT_LATEST_SQL SQLITE_OK ∈ evs ↔ ∃ rc, EvFinalize rc ∈ evs)
       ∧ ∀ rc, EvFinalize rc ∈ evs → head evs = Some (EvFinalize rc)).
Proof.
  split; intros evs Hevs.
  - destruct (store_cases self a b c d w)
      as [(_ & _ & _ & Htr)
         |[(_ & rc & Hrc & _ & _ & Htr)
          |[(_ & rc & Hrc & _ & _ & Htr)
           |(_ & conn & t & _ & _ & _ &
             [(_ & _ & Htr)|(_ & rc & Htr & _)])]]].
    all: rewrite Htr in Hevs; symmetry in Hevs.
    1-2: apply (app_inv_tail _ evs [_]) in Hevs; subst evs.
    3-5: rewrite !app_comm_cons, (cons_middle _ _ (w_trace w)), !app_assoc in Hevs;
         apply (app_inv_tail _ evs) in Hevs; subst evs.
    + split; [split|]; [intros H; absent H|intros [? H]; absent H|intros ? H; absent H].
    + split; [split|]; [intros H; absent H|intros [? H]; absent H|intros ? H; absent H].
    + split; [split|]; [intros _; eexists; present|intros _; cbn; present|].
      intros rc' H. left. cbn in H.
      apply elem_of_cons in H as [H|H]; [by rewrite H|absent H].
    + split; [split|]; [intros _; eexists; present|intros _; cbn; present|].
      intros rc' H. left. cbn in H.
      apply elem_of_cons in H as [H|H]; [by rewrite H|absent H].
    + split; [split|]; [intros _; eexists; present|intros _; cbn; present|].
      intros rc' H. right. exists rc. cbn in H.
      apply elem_of_cons in H as [H|H]; [done|].
      apply elem_of_cons in H as [H|H]; [by rewrite H|absent H].
  - destruct (read_latest_cases self out w)
      as [(rc & Hrc & _ & _ & Htr)|[(rc & rcf & _ & _ & _ & Htr & _)
         |(? & ? & ? & ? & _ & _ & _ & _ & _ & Htr)]].
    all: rewrite Htr in Hevs; symmetry in Hevs.
    + apply (app_inv_tail _ evs [_]) in Hevs. subst evs.
      split; [split|]; [intros H; absent H|intros [? H]; absent H|intros ? H; absent H].
    + apply (app_inv_tail _ evs [_; _; _]) in Hevs. subst evs.
      split; [split|]; [intros _; eexists; present|intros _; present|].
      intros rc' H. apply elem_of_cons in H as [H|H]; [by rewrite H|absent H].
    + apply (app_inv_tail _ evs [_; _; _]) in Hevs. subst evs.
      split; [split|]; [intros _; eexists; present|intros _; present|].
      intros rc' H. apply elem_of_cons in H as [H|H]; [by rewrite H|absent H].
Qed.

End Properties.

(** ** Runs on concrete stores *)

Import Scenario.

Lemma wf_table_rows123 : wf_table (table_with [row1; row2; row3] 3).
Proof. split; repeat constructor; unfold id_lt; simpl; lia. Qed.

Lemma wf_table_none : wf_table (table_with [] 0).
Proof. split; constructor. Qed.

(** *** C5 *)

Lemma store_refused_unless_producer_witness :
  let w := world_with (Some (table_with [row1] 1)) [] in
  sensors_db_store_data consumer 1 2 3 4 w
  = (-1, set_trace (EvStderr ("DB is read-only" +:+ newline) :: w_trace w) w)
  ∧ w_files (sensors_db_store_data consumer 1 2 3 4 w).2 = w_files w.
Proof. apply store_refused_unless_producer. simpl. discriminate. Defined.

(** *** C6 *)

Lemma open_consumer_missing_file_witness :
  let r := sensors_db_open path SENSORS_DB_CONSUMER 0 world_empty in
  r.1 = None
  ∧ w_files r.2 = w_files world_empty
  ∧ w_faults r.2 = w_faults world_empty
  ∧ w_trace r.2 = if w_calloc_fails world_empty then w_trace world_empty
                  else EvStderr ("Database does not exist: " +:+ path +:+ newline)
                       :: w_trace world_empty.
Proof. apply open_consumer_missing_file. reflexivity. Defined.

(** *** C1 *)



(** *** C2 *)

(** On a table of three rows with [max_samples = 3], the second step
    fails with SQLITE_IOERR after the first row was copied:
    [sensors_db_read_n] returns 1, not -1. *)
Lemma read_n_step_fault_returns_count_witness :
  let w := world_with (Some (table_with [row1; row2; row3] 3)) [None; None; Some IoErr] in
  ∃ w',
    sensors_db_read_n consumer [blank; blank; blank] 3 w
    = Returned (1, [sample_of_row row3 blank; blank; blank]) w'
    ∧ w_trace w' = [EvFinalize SQLITE_IOERR; EvStep SQLITE_IOERR; EvStep SQLITE_ROW;
                    EvBindInt 1 3; EvPrepare SELECT_N_SQL SQLITE_OK].
Proof.
  intros w.
  destruct (read_n_step_fault_returns_count consumer [blank; blank; blank] 3 w conn_ro
              (table_with [row1; row2; row3] 3) IoErr [] 1) as (w' & Heq & Htr).
  - reflexivity.
  - reflexivity.
  - reflexivity.
  - vm_compute. lia.
  - simpl. lia.
  - exists w'. split; [exact Heq|exact Htr].
Defined.

(** *** C3 *)

Lemma read_n_returns_min_witness :
  let w := world_with (Some (table_with [row1; row2] 2)) [] in
  let t := table_with [row1; row2] 2 in
  let out_array := [blank; blank; blank] in
  ∃ w' out_array',
    sensors_db_read_n consumer out_array 3 w = Returned (Z.min 3 2, out_array') w'
    ∧ out_array' = store_rows (select_desc_limit 3 t) 0 out_array
    ∧ (∀ i, 3 <= Z.of_nat i → out_array' !! i = out_array !! i)
    ∧ w_trace w'
      = EvFinalize SQLITE_OK
        :: (if decide (0 < 3 <= 2) then [] else [EvStep SQLITE_DONE])
        ++ replicate (Z.to_nat (Z.min 3 2)) (EvStep SQLITE_ROW)
        ++ EvBindInt 1 3 :: EvPrepare SELECT_N_SQL SQLITE_OK :: w_trace w.
Proof.
  intros w t out_array.
  apply (read_n_returns_min consumer out_array 3 w conn_ro t).
  - reflexivity.
  - reflexivity.
  - constructor.
  - lia.
  - simpl. lia.
Defined.

(** The claim as stated fails for a negative [max_samples]: the call
    returns 1, which is not min(-1, 2), and it has written one entry, more
    than [max_samples]. *)
Lemma read_n_minus_one_returns_one :
  let w := world_with (Some (table_with [row1; row2] 2)) [] in
  ∃ w' out_array',
    sensors_db_read_n consumer [blank; blank; blank] (-1) w = Returned (1, out_array') w'
    ∧ 1 ≠ Z.min (-1) (Z.of_nat (length [row1; row2]))
    ∧ out_array' !! 0%nat ≠ Some blank.
Proof.
  eexists _, _. split; [vm_compute; reflexivity|]. split; [simpl; lia|].
  vm_compute. discriminate.
Qed.

(** With [max_samples = -1] and an array without any entry, the one row
    is stored outside the array. *)
Lemma read_n_minus_one_overruns_empty_array :
  sensors_db_read_n consumer [] (-1) (world_with (Some (table_with [row1; row2] 2)) [])
  = Undefined.
Proof. vm_compute. reflexivity. Qed.

(** *** C10 *)

Lemma read_n_negative_max_witness :
  let w := world_with (Some (table_with [row1; row2] 2)) [] in
  let t := table_with [row1; row2] 2 in
  let out_array := [blank; blank; blank] in
  select_desc_limit (-1) t = order_by_id_desc (tbl_rows t)
  ∧ ∃ r w',
      sensors_db_read_n consumer out_array (-1) w
      = Returned (1, alter (sample_of_row r) 0%nat out_array) w'
      ∧ r ∈ tbl_rows t ∧ (∀ r', r' ∈ tbl_rows t → row_id r' <= row_id r)
      ∧ w_trace w' = [EvFinalize SQLITE_OK; EvStep SQLITE_ROW; EvBindInt 1 (-1);
                      EvPrepare SELECT_N_SQL SQLITE_OK] ++ w_trace w.
Proof.
  intros w t out_array.
  destruct (read_n_negative_max consumer out_array (-1) w conn_ro t)
    as (Hall & Hrows & _).
  - reflexivity.
  - reflexivity.
  - constructor.
  - lia.
  - split; [exact Hall|]. apply Hrows; [discriminate|simpl; lia].
Defined.

(** *** C4 *)

Lemma read_n_returns_stores_reversed_witness :
  let ms : list (measurements Z) := [(1, 2, 3, 4); (5, 6, 7, 8)] in
  let out_array := [blank; blank] in
  ∃ news w3,
    sensors_db_read_n (producer 0) out_array (Z.of_nat (length ms)) stored_twice
    = Returned (Z.of_nat (length ms), store_rows (reverse news) 0 out_array) w3
    ∧ length news = length ms
    ∧ row_reals <$> news = bound_reals <$> ms
    ∧ StronglySorted (fun r1 r2 => row_id r2 < row_id r1) (reverse news)
    ∧ (0 <= tbl_seq (table_with [] 0) →
       tbl_seq (table_with [] 0) + Z.of_nat (length ms) <= INT_MAX →
       sample_id <$> take (length ms) (store_rows (reverse news) 0 out_array)
       = row_id <$> reverse news).
Proof.
  intros ms out_array.
  apply (read_n_returns_stores_reversed (producer 0) ms
           (world_with (Some (table_with [] 0)) []) stored_twice stored_twice
           out_array conn_rw (table_with [] 0)).
  - reflexivity.
  - reflexivity.
  - reflexivity.
  - reflexivity.
  - exact wf_table_none.
  - eapply stores_ok_cons; [split; reflexivity|vm_compute; reflexivity|].
    eapply stores_ok_cons; [split; reflexivity|vm_compute; reflexivity|].
    unfold stored_twice. vm_compute. apply stores_ok_nil.
  - split; reflexivity.
  - unfold quiet. vm_compute. constructor.
  - simpl. lia.
Defined.

(** *** C7 *)

(** A store whose trim meets a busy store: the call returns 0 and the
    table holds the new row, nothing deleted. *)
Lemma store_success_iff_compiled_and_finalized_witness :
  let t := table_with [row1] 1 in
  let w := world_with (Some t) [None; None; Some Busy] in
  let r := sensors_db_store_data (producer 1) 1 2 3 4 w in
  r.1 = 0
  ∧ EvExec (TRIM_SQL 1) SQLITE_BUSY ∈ w_trace r.2
  ∧ table_of conn_rw r.2 = Some (insert_row (w_now w) (bound_params 1 2 3 4) t).
Proof.
  intros t w r.
  destruct (store_success_iff_compiled_and_finalized (producer 1) 1 2 3 4 w)
    as (evs & Htr & _ & _ & _ & _ & _ & _ & Henv & Hrow & _).
  fold r in Htr, Henv, Hrow.
  assert (Hw : w_trace w = []) by reflexivity. rewrite Hw, app_nil_r in Htr.
  assert (H0 : r.1 = 0).
  { apply Henv. split; [reflexivity|]. exists conn_rw, t.
    split_and!; try reflexivity. }
  destruct (Hrow H0) as (_ & conn & t0 & t' & Hdb & Ht & Ht' & _ & _ & Htrim).
  injection Hdb as <-.
  assert (Ht0 : table_of conn_rw w = Some t) by reflexivity.
  rewrite Ht0 in Ht. injection Ht as <-.
  assert (Hin : EvExec (TRIM_SQL 1) SQLITE_BUSY ∈ evs).
  { rewrite <-Htr. vm_compute. apply list_elem_of_here. }
  split_and!; [exact H0|by rewrite Htr|].
  rewrite Ht'. f_equal. apply (Htrim _ _ Hin). discriminate.
Defined.

(** *** C8 *)

(** A stored timestamp of 40 characters: the sample holds its first 32
    characters and no terminator. *)
Lemma read_latest_long_timestamp_unterminated_witness :
  let w := world_with (Some (table_with [row_long] 1)) [] in
  let res := sensors_db_read_latest consumer blank w in
  res.1.1 = SQLITE_OK
  ∧ sample_timestamp res.1.2 = list_ascii_of_string "2024-05-01T10:00:00.000000+00:00"
  ∧ length (sample_timestamp res.1.2) = sizeof_timestamp
  ∧ c_string (sample_timestamp res.1.2) = None.
Proof.
  intros w.
  apply (read_latest_long_timestamp_unterminated consumer blank w conn_ro
           (table_with [row_long] 1) row_long []).
  - reflexivity.
  - reflexivity.
  - constructor.
  - reflexivity.
  - reflexivity.
  - vm_compute. lia.
  - vm_compute. intros Hin.
    repeat (apply elem_of_cons in Hin as [Hin|Hin]; [discriminate|]).
    by apply elem_of_nil in Hin.
Defined.

(** *** C9 *)

(** A store on a Consumer handle, a read of an empty table and a read of
    a file without the table all return -1. *)
Lemma failures_return_minus_one_witness :
  (sensors_db_store_data consumer 1 2 3 4 (world_with (Some (table_with [row1] 1)) [])).1
  = -1
  ∧ (sensors_db_read_latest consumer blank (world_with (Some (table_with [] 0)) [])).1
    = (-1, blank)
  ∧ (sensors_db_read_latest consumer blank (world_with None [])).1 = (-1, blank).
Proof.
  split_and!.
  - destruct (proj1 failures_return_minus_one consumer 1 2 3 4
                (world_with (Some (table_with [row1] 1)) [])) as (Hrole & _).
    apply Hrole. simpl. discriminate.
  - destruct (proj2 failures_return_minus_one consumer blank
                (world_with (Some (table_with [] 0)) []))
      as (_ & _ & _ & _ & _ & Hempty & _).
    apply (Hempty conn_ro (table_with [] 0)); reflexivity.
  - destruct (proj2 failures_return_minus_one consumer blank (world_with None []))
      as (_ & _ & Hnotable & _).
    apply (Hnotable conn_ro); reflexivity.
Defined.

(** The claim as stated fails: on an empty table (the step returns
    SQLITE_DONE) and on a file without the table (the statement does not
    compile, SQLITE_ERROR) [sensors_db_read_latest] returns the same
    value. *)
Lemma read_latest_failures_indistinguishable :
  let r1 := sensors_db_read_latest consumer blank (world_with (Some (table_with [] 0)) []) in
  let r2 := sensors_db_read_latest consumer blank (world_with None []) in
  w_trace r1.2 = [EvFinalize SQLITE_OK; EvStep SQLITE_DONE;
                  EvPrepare SELECT_LATEST_SQL SQLITE_OK]
  ∧ w_trace r2.2 = [EvPrepare SELECT_LATEST_SQL SQLITE_ERROR]
  ∧ r1.1 = r2.1.
Proof. split_and!; vm_compute; reflexivity. Qed.

(** *** Stores, one and many *)


(** Two stores under a limit of 2 on a table of three rows. *)
Lemma stores_ok_keep2 :
  stores_ok (producer 2) [(1, 2, 3, 4); (5, 6, 7, 8)]
    (world_with (Some (table_with [row1; row2; row3] 3)) []) stored_twice_keep2.
Proof.
  eapply stores_ok_cons; [split; reflexivity|vm_compute; reflexivity|].
  eapply stores_ok_cons; [split; reflexivity|vm_compute; reflexivity|].
  unfold stored_twice_keep2. vm_compute. apply stores_ok_nil.
Qed.

Lemma stores_never_reuse_ids_witness :
  let t := table_with [row1; row2; row3] 3 in
  ∃ T, table_of conn_rw stored_twice_keep2 = Some T
    ∧ wf_table T
    ∧ tbl_seq T = tbl_seq t + Z.of_nat 2
    ∧ ∀ r, r ∈ tbl_rows T → r ∈ tbl_rows t ∨ tbl_seq t < row_id r.
Proof.
  intros t.
  apply (stores_never_reuse_ids (producer 2) [(1, 2, 3, 4); (5, 6, 7, 8)]
           (world_with (Some t) []) stored_twice_keep2 stores_ok_keep2 conn_rw t).
  - reflexivity.
  - reflexivity.
  - exact wf_table_rows123.
Defined.



(** *** Opening *)


(** An open that fails on a busy store leaves its table as it was. *)
Lemma open_keeps_existing_tables_witness :
  let t := table_with [row1; row2; row3] 3 in
  w_files (sensors_db_open path SENSORS_DB_PRODUCER 0 (world_with (Some t) [Some Busy])).2
    !! path = Some (Some t).
Proof.
  intros t.
  apply (open_keeps_existing_tables path SENSORS_DB_PRODUCER 0
           (world_with (Some t) [Some Busy]) path t).
  vm_compute. reflexivity.
Defined.


(** A Producer open of a file without the table, whose table creation
    meets a busy store: the connection that was opened is closed and NULL
    is returned. *)
Lemma open_closes_connection_iff_it_fails_witness :
  let r := sensors_db_open path SENSORS_DB_PRODUCER 0 (world_with None [None; Some Busy]) in
  r.1 = None ∧ EvClose ∈ w_trace r.2.
Proof.
  intros r.
  assert (Hnone : r.1 = None) by (vm_compute; reflexivity).
  split; [exact Hnone|].
  apply (open_closes_connection_iff_it_fails path SENSORS_DB_PRODUCER 0
           (world_with None [None; Some Busy]) (w_trace r.2)
           (Z.lor SQLITE_OPEN_READWRITE SQLITE_OPEN_CREATE)).
  - symmetry. apply app_nil_r.
  - vm_compute. repeat first [apply list_elem_of_here | apply list_elem_of_further].
  - exact Hnone.
Defined.

(** A Producer open of a path without a file, whose table creation meets
    a busy store: NULL is returned, the diagnostic is written, and the
    file is left behind without the table. *)
Lemma open_failure_is_reported_witness :
  let w := set_faults [None; Some Busy] world_empty in
  let r := sensors_db_open path SENSORS_DB_PRODUCER 0 w in
  ((∃ msg, EvStderr msg ∈ w_trace r.2) ↔ r.1 = None ∧ w_calloc_fails w = false)
  ∧ (r.1 = None →
     ∀ p, w_files r.2 !! p = w_files w !! p
          ∨ (p = path ∧ SENSORS_DB_PRODUCER = SENSORS_DB_PRODUCER
             ∧ w_files w !! p = None ∧ w_files r.2 !! p = Some None)).
Proof.
  intros w r.
  apply (open_failure_is_reported path SENSORS_DB_PRODUCER 0 w (w_trace r.2)).
  symmetry. apply app_nil_r.
Defined.


(** *** Reading *)

Lemma read_latest_newest_or_nothing_witness :
  let t := table_with [row1; row2; row3] 3 in
  let w := world_with (Some t) [None; Some Busy] in
  let r := sensors_db_read_latest consumer blank w in
  (r.1 = (-1, blank)
   ∨ ∃ r0, last (tbl_rows t) = Some r0 ∧ r.1 = (0, sample_of_row r0 blank)
           ∧ ∀ r', r' ∈ tbl_rows t → row_id r' <= row_id r0)
  ∧ (tbl_rows t = [] → r.1 = (-1, blank))
  ∧ (quiet w → tbl_rows t ≠ [] → r.1.1 = 0).
Proof.
  intros t w.
  apply (read_latest_newest_or_nothing consumer blank w conn_ro t).
  - reflexivity.
  - reflexivity.
  - exact wf_table_rows123.
Defined.


Lemma read_n_newest_first_witness :
  let t := table_with [row1; row2; row3] 3 in
  let w := world_with (Some t) [] in
  let out_array := [blank; blank] in
  let n := length (tbl_rows t) in
  let k := Nat.min (Z.to_nat 2) n in
  ∃ w' out_array',
    sensors_db_read_n consumer out_array 2 w = Returned (Z.of_nat k, out_array') w'
    ∧ length out_array' = length out_array
    ∧ (∀ i r old, (i < k)%nat → tbl_rows t !! (n - 1 - i)%nat = Some r →
                  out_array !! i = Some old →
                  out_array' !! i = Some (sample_of_row r old))
    ∧ (∀ i, (k ≤ i)%nat → out_array' !! i = out_array !! i).
Proof.
  intros t w out_array n k.
  apply (read_n_newest_first consumer out_array 2 w conn_ro t).
  - reflexivity.
  - reflexivity.
  - exact wf_table_rows123.
  - constructor.
  - lia.
  - simpl. lia.
Defined.
